(** * Smart energy system: relay synchronisation and threshold automation

    A shallow embedding of the state-synchronisation core of the dashboard
    (src/components/dashboard/dashboard.tsx and its earlier revision), of the
    allocation flow (src/ai/flows/intelligent-switch-control.ts) and of the
    ESP32 stream callback, followed by the properties of each component.

    Conventions of the embedding.
    - JavaScript numbers that carry telemetry are modelled as [Z]; a field
      that may be absent from a remote record is an [option] ([None] is
      [undefined]).
    - React state is passed explicitly; a [useRef] cell is a field of the
      state record; effects that run after a render are a separate function,
      applied where a render takes place.
    - Calls that leave the process (server actions, the model call) are
      functions taken as arguments, and the calls made are logged in the
      state so that "was not invoked" can be stated. *)

From stdpp Require Import base option list strings pretty gmap.
From Stdlib Require Import ZArith Lia Sorted Permutation Ascii.

Open Scope Z_scope.

(** ** JavaScript helpers *)

(** [a ?? d]: the left operand unless it is [undefined]. *)
Definition nullish {A : Type} (a : option A) (d : A) : A :=
  match a with
  | Some v => v
  | None => d
  end.

Infix "??" := nullish (at level 45, left associativity).

(** Truthiness of an optional number: [undefined] and [0] are falsy. *)
Definition truthy (a : option Z) : bool :=
  match a with
  | Some v => negb (v =? 0)
  | None => false
  end.

(** [x < k] where [x] may be [undefined]: a comparison with [undefined]
    is always [false]. *)
Definition js_lt (x : option Z) (k : Z) : bool :=
  match x with
  | Some v => v <? k
  | None => false
  end.

(** ** WireCodec *)

Module WireCodec.

(** dashboard.tsx, [const newUiState = !s.state] and, in
    [updateAllSwitches], [state: !newSwitchDbStates[i]]: the remote store
    holds [false] for an energised relay, the UI holds [true]. *)
Definition toLogical (wireState : bool) : bool := negb wireState.

(** Modelled from the spec: the server action [updateSwitchState] of
    app/actions is not among the sources; it receives the UI state and
    stores its negation ([toWire(logicalOn) = !logicalOn]). *)
Definition toWire (logicalOn : bool) : bool := negb logicalOn.

End WireCodec.

(** ** Telemetry *)

(** lib/types [EnergyData]. *)
Record EnergyData : Type := mkEnergyData {
  voltage : Z;
  current : Z;
  batteryLevel : Z;
  power : Z;
  temperature : Z;
  humidity : Z;
  totalConsumption : Z;
  energyRemain : Z
}.

(** The record stored under the latest key of app/energyData; every field
    may be missing. *)
Record LatestData : Type := mkLatestData {
  ld_voltage : option Z;
  ld_current : option Z;
  ld_batteryLevel : option Z;
  ld_power : option Z;
  ld_temperature : option Z;
  ld_humidity : option Z;
  ld_totalConsumption : option Z;
  ld_energyRemain : option Z
}.

(** [(latestData.voltage && latestData.current)
       ? latestData.voltage * latestData.current : fallback] *)
Definition powerOf (latestData : LatestData) (fallback : Z) : Z :=
  if truthy (ld_voltage latestData) && truthy (ld_current latestData)
  then (ld_voltage latestData ?? 0) * (ld_current latestData ?? 0)
  else fallback.

(** dashboard.tsx, lines 137-146: the snapshot built from one remote record.
    [INITIAL_ENERGY_DATA] (lib/data) is a constant of the application that
    the embedding takes as an argument. *)
Definition newEnergyData (INITIAL_ENERGY_DATA : EnergyData)
    (latestData : LatestData) : EnergyData :=
  {| voltage := ld_voltage latestData ?? voltage INITIAL_ENERGY_DATA;
     current := ld_current latestData ?? current INITIAL_ENERGY_DATA;
     batteryLevel :=
       ld_batteryLevel latestData ?? batteryLevel INITIAL_ENERGY_DATA;
     power := powerOf latestData (power INITIAL_ENERGY_DATA);
     temperature :=
       ld_temperature latestData ?? temperature INITIAL_ENERGY_DATA;
     humidity := ld_humidity latestData ?? humidity INITIAL_ENERGY_DATA;
     totalConsumption :=
       ld_totalConsumption latestData ?? totalConsumption INITIAL_ENERGY_DATA;
     energyRemain :=
       ld_energyRemain latestData ?? energyRemain INITIAL_ENERGY_DATA |}.

(** Earlier revision of the dashboard, the updater passed to
    [setEnergyData]: [{...prev, voltage: latestData.voltage ?? prev.voltage,
    ...}]. *)
Definition mergeWithPrev (prev : EnergyData) (latestData : LatestData)
    : EnergyData :=
  {| voltage := ld_voltage latestData ?? voltage prev;
     current := ld_current latestData ?? current prev;
     batteryLevel := ld_batteryLevel latestData ?? batteryLevel prev;
     power := powerOf latestData (power prev);
     temperature := ld_temperature latestData ?? temperature prev;
     humidity := ld_humidity latestData ?? humidity prev;
     totalConsumption := totalConsumption prev;
     energyRemain := energyRemain prev |}.

(** ** ThresholdGuard *)

(** The guard of dashboard.tsx: a ref holding the previous battery level. *)
Module Guard.

Record State : Type := mkState {
  energyData : EnergyData;
  previousBatteryLevel : option Z   (* useRef<number | null>(null) *)
}.

(** State before the first render. *)
Definition initial (INITIAL_ENERGY_DATA : EnergyData) : State :=
  {| energyData := INITIAL_ENERGY_DATA; previousBatteryLevel := None |}.

(** [useEffect(() => { previousBatteryLevel.current =
    energyData.batteryLevel }, [energyData.batteryLevel])]: runs after the
    first render and after every render in which the level changed; when
    the level did not change the ref already holds it. *)
Definition commitEffects (st : State) : State :=
  {| energyData := energyData st;
     previousBatteryLevel := Some (batteryLevel (energyData st)) |}.

(** [prevBatteryLevel !== null && newBatteryLevel < 40
     && prevBatteryLevel >= 40] *)
Definition shouldAutomate (prevBatteryLevel newBatteryLevel : option Z)
    : bool :=
  match prevBatteryLevel with
  | None => false
  | Some p => js_lt newBatteryLevel 40 && (40 <=? p)
  end.

(** The [onValue] callback of the energy query. [snapshot] is [None] when
    [snapshot.val()] is empty. The result is the state after
    [setEnergyData] and whether [handleOptimization(newEnergyData, true)]
    was called. *)
Definition onEnergyValue (INITIAL_ENERGY_DATA : EnergyData) (st : State)
    (snapshot : option LatestData) : State * bool :=
  match snapshot with
  | None => (st, false)
  | Some latestData =>
      let newBatteryLevel := ld_batteryLevel latestData in
      let prevBatteryLevel := previousBatteryLevel st in
      ({| energyData := newEnergyData INITIAL_ENERGY_DATA latestData;
          previousBatteryLevel := prevBatteryLevel |},
       shouldAutomate prevBatteryLevel newBatteryLevel)
  end.

(** One observation when React renders before the next snapshot arrives:
    the callback, then the render and its effects. The callback itself
    never writes the ref; streams in which several snapshots are handled
    before a render are the subject of [runEvents] below. *)
Definition step (INITIAL_ENERGY_DATA : EnergyData) (st : State)
    (snapshot : option LatestData) : State * bool :=
  let '(st', fired) := onEnergyValue INITIAL_ENERGY_DATA st snapshot in
  (commitEffects st', fired).

(** The component once mounted: first render, then its effects; the
    subscription is set up by a later effect of the same commit. *)
Definition mounted (INITIAL_ENERGY_DATA : EnergyData) : State :=
  commitEffects (initial INITIAL_ENERGY_DATA).

(** The automation flags of a stream of snapshots, in arrival order. *)
Fixpoint run (INITIAL_ENERGY_DATA : EnergyData) (st : State)
    (snapshots : list (option LatestData)) : list bool :=
  match snapshots with
  | [] => []
  | s :: rest =>
      let '(st', fired) := step INITIAL_ENERGY_DATA st s in
      fired :: run INITIAL_ENERGY_DATA st' rest
  end.

End Guard.

(** The guard of the earlier revision: the held snapshot is the previous
    level and a ref latches the trigger. *)
Module LatchGuard.

Record State : Type := mkState {
  energyData : EnergyData;
  lowBatteryOptimizationTriggered : bool   (* useRef(false) *)
}.

Definition mounted (INITIAL_ENERGY_DATA : EnergyData) : State :=
  {| energyData := INITIAL_ENERGY_DATA;
     lowBatteryOptimizationTriggered := false |}.

(** The updater passed to [setEnergyData] in the [onValue] callback. *)
Definition step (st : State) (snapshot : option LatestData)
    : State * bool :=
  match snapshot with
  | None => (st, false)
  | Some latestData =>
      let prev := energyData st in
      let newBatteryLevel :=
        ld_batteryLevel latestData ?? batteryLevel prev in
      let hasJustDropped :=
        (newBatteryLevel <? 40) && (40 <=? batteryLevel prev) in
      let next := mergeWithPrev prev latestData in
      if hasJustDropped && negb (lowBatteryOptimizationTriggered st)
      then ({| energyData := next;
               lowBatteryOptimizationTriggered := true |}, true)
      else if 40 <=? newBatteryLevel
      then ({| energyData := next;
               lowBatteryOptimizationTriggered := false |}, false)
      else ({| energyData := next;
               lowBatteryOptimizationTriggered :=
                 lowBatteryOptimizationTriggered st |}, false)
  end.

Fixpoint run (st : State) (snapshots : list (option LatestData))
    : list bool :=
  match snapshots with
  | [] => []
  | s :: rest =>
      let '(st', fired) := step st s in
      fired :: run st' rest
  end.

End LatchGuard.

(** The transition rule in the words of the specification: an event at
    exactly the observations whose previous level is at least [T] and whose
    new level is below [T]. *)
Fixpoint crossings (T : Z) (p : Z) (levels : list Z) : list bool :=
  match levels with
  | [] => []
  | b :: rest => ((T <=? p) && (b <? T)) :: crossings T b rest
  end.

(** A snapshot that carries only a battery level. *)
Definition levelOnly (b : Z) : LatestData :=
  {| ld_voltage := None; ld_current := None; ld_batteryLevel := Some b;
     ld_power := None; ld_temperature := None; ld_humidity := None;
     ld_totalConsumption := None; ld_energyRemain := None |}.

Definition count_true (l : list bool) : nat := length (filter (λ b, b = true) l).

(** ** RelayStateIngest *)

(** lib/types [SwitchState]. The name is optional because the ingest below
    copies [s.name] from the remote record, which may lack it. *)
Record SwitchState : Type := mkSwitchState {
  id : Z;
  name : option string;
  state : bool
}.

(** One value of the remote map app/switchStates. [rs_state] is [None] when
    the record has no own property [state]; otherwise it is the truthiness
    of the stored value (the store holds booleans). *)
Record RemoteSwitch : Type := mkRemoteSwitch {
  rs_name : option string;
  rs_state : option bool
}.

(** [parseInt(id, 10)]: leading white space, an optional sign, the longest
    prefix of decimal digits; [None] is [NaN]. The result is the exact
    integer: it is the number JavaScript returns for every key of
    magnitude up to 2^53, beyond which a double rounds. White space is the
    ASCII one (a key is a store path segment); other Unicode spaces are
    not skipped. *)
Definition isWhiteSpace (c : Ascii.ascii) : bool :=
  let n := Z.of_nat (Ascii.nat_of_ascii c) in
  ((9 <=? n) && (n <=? 13)) || (n =? 32).

Fixpoint trimStart (s : string) : string :=
  match s with
  | String c rest => if isWhiteSpace c then trimStart rest else s
  | EmptyString => EmptyString
  end.

Definition digitValue (c : Ascii.ascii) : option Z :=
  let n := Z.of_nat (Ascii.nat_of_ascii c) in
  if (48 <=? n) && (n <=? 57) then Some (n - 48) else None.

Fixpoint digitsPrefix (s : string) (acc : option Z) : option Z :=
  match s with
  | String c rest =>
      match digitValue c with
      | Some d => digitsPrefix rest (Some (10 * (acc ?? 0) + d))
      | None => acc
      end
  | EmptyString => acc
  end.

Definition parseInt (s : string) : option Z :=
  match trimStart s with
  | String c rest =>
      if Ascii.eqb c "-"%char then Z.opp <$> digitsPrefix rest None
      else if Ascii.eqb c "+"%char then digitsPrefix rest None
      else digitsPrefix (String c rest) None
  | EmptyString => None
  end.

(** [s.name || `Switch ${switchId}`]: the empty string is falsy. *)
Definition nameOrDefault (n : option string) (switchId : Z) : string :=
  match n with
  | Some s => if String.eqb s "" then "Switch " +:+ pretty switchId else s
  | None => "Switch " +:+ pretty switchId
  end.

(** [updatedSwitches.findIndex(sw => sw.id === switchId)] together with the
    element found; [None] is the index [-1]. *)
Definition findIndex (switchId : Z) (l : list SwitchState)
    : option (nat * SwitchState) :=
  list_find (λ sw, id sw = switchId) l.

(** The body of [Object.entries(data).forEach(([id, s]) => ...)], on the
    pair of the working copy and the flag [hasChanged]. *)
Definition processEntry (acc : list SwitchState * bool)
    (entry : string * RemoteSwitch) : list SwitchState * bool :=
  let '(updatedSwitches, hasChanged) := acc in
  let '(key, s) := entry in
  match parseInt key, rs_state s with
  | Some switchId, Some remoteState =>
      let newUiState := negb remoteState in
      match findIndex switchId updatedSwitches with
      | Some (switchIndex, found) =>
          if Bool.eqb (state found) newUiState
          then (updatedSwitches, hasChanged)
          else (<[switchIndex :=
                   {| id := id found; name := rs_name s;
                      state := newUiState |}]> updatedSwitches, true)
      | None =>
          (updatedSwitches ++
             [{| id := switchId;
                 name := Some (nameOrDefault (rs_name s) switchId);
                 state := newUiState |}], true)
      end
  | _, _ => (updatedSwitches, hasChanged)
  end.

(** [updatedSwitches.sort((a, b) => a.id - b.id)]. The sort of an array is
    stable, and a stable sort is determined by its comparator, so insertion
    from the right stands for it. *)
Fixpoint insertById (x : SwitchState) (l : list SwitchState)
    : list SwitchState :=
  match l with
  | [] => [x]
  | y :: rest => if id x <=? id y then x :: l else y :: insertById x rest
  end.

Definition sortById (l : list SwitchState) : list SwitchState :=
  foldr insertById [] l.

(** The updater passed to [setSwitches] by the [onValue] callback of
    app/switchStates. [data] lists [Object.entries(data)] in order. The
    second component tells whether a new array was stored ([true]) or
    [prevSwitches] itself was returned ([false]), which is what makes React
    re-render and notify. *)
Definition onSwitchStates (prevSwitches : list SwitchState)
    (data : list (string * RemoteSwitch)) : list SwitchState * bool :=
  let '(updatedSwitches, hasChanged) :=
    foldl processEntry (prevSwitches, false) data in
  if hasChanged then (sortById updatedSwitches, true)
  else (prevSwitches, false).

(** The relay ids that a remote map mentions (entries the loop skips
    excluded). *)
Definition entryId (entry : string * RemoteSwitch) : option Z :=
  match rs_state entry.2 with
  | Some _ => parseInt entry.1
  | None => None
  end.

Definition observedIds (data : list (string * RemoteSwitch)) : list Z :=
  omap entryId data.

(** First entry of the held list with a given id. *)
Definition heldState (l : list SwitchState) (switchId : Z) : option bool :=
  (λ p, state p.2) <$> findIndex switchId l.

(** ** AllocationPolicy *)

(** src/ai/flows/intelligent-switch-control.ts, the two schemas. *)
Record IntelligentSwitchControlInput : Type := mkInput {
  in_voltage : Z;
  in_current : Z;
  in_batteryLevel : Z;
  in_powerConsumption : Z;
  in_predictedUsage : Z;
  in_userPreferences : string;
  in_userUsagePatterns : string
}.

(** The five states are in the store's convention: [false] for ON. *)
Record IntelligentSwitchControlOutput : Type := mkOutput {
  switch1State : bool;
  switch2State : bool;
  switch3State : bool;
  switch4State : bool;
  switch5State : bool;
  reasoning : string
}.

(** [intelligentSwitchControlFlow]: [const {output} = await prompt(input);
    return output!]. The prompt is a call to a language model; it is an
    argument of the embedding, and [None] is a [null] output. Nothing is
    computed from the answer. *)
Definition intelligentSwitchControlFlow
    (prompt : IntelligentSwitchControlInput →
              option IntelligentSwitchControlOutput)
    (input : IntelligentSwitchControlInput)
    : option IntelligentSwitchControlOutput :=
  prompt input.

Definition intelligentSwitchControl := intelligentSwitchControlFlow.

(** dashboard.tsx, line 95: [[switch1State, ..., switch5State]]. *)
Definition newSwitchDbStates (out : IntelligentSwitchControlOutput)
    : list bool :=
  [switch1State out; switch2State out; switch3State out;
   switch4State out; switch5State out].

(** Number of relays a decision turns ON (outputs that are [false]). *)
Definition onCount (out : IntelligentSwitchControlOutput) : nat :=
  length (filter (λ b, b = false) (newSwitchDbStates out)).

(** The numbered rules of the prompt text, read as a predicate on the
    answer. Only the rules worded with MUST constrain it; the others are
    guidance. *)
Module PromptRules.

(** intelligent-switch-control.ts: CRITICAL below 10, VERY LOW 10-20,
    LOW 30-50, HEALTHY 60-70 ("you can turn on all switches"). *)
Definition complies (batteryLevel : Z)
    (out : IntelligentSwitchControlOutput) : bool :=
  if batteryLevel <? 10 then (onCount out =? 0)%nat
  else if batteryLevel <=? 20 then (onCount out =? 1)%nat
  else if (30 <=? batteryLevel) && (batteryLevel <=? 50)
  then (onCount out <=? 2)%nat
  else true.

(** The other revision of the prompt: CRITICAL below 10, VERY LOW 10-30,
    LOW 40-50 (at most two), HEALTHY 60-70 (at most three), OPTIMAL
    above 70 (all). *)
Definition compliesBanded (batteryLevel : Z)
    (out : IntelligentSwitchControlOutput) : bool :=
  if batteryLevel <? 10 then (onCount out =? 0)%nat
  else if batteryLevel <=? 30 then (onCount out =? 1)%nat
  else if (40 <=? batteryLevel) && (batteryLevel <=? 50)
  then (onCount out <=? 2)%nat
  else if (60 <=? batteryLevel) && (batteryLevel <=? 70)
  then (onCount out <=? 3)%nat
  else if 70 <? batteryLevel then (onCount out =? 5)%nat
  else true.

End PromptRules.

(** ** Dashboard state, ReconciliationWriter and the optimisation handler *)

(** The shape of a server action's result. *)
Record ActionResult (A : Type) : Type := mkResult {
  success : bool;
  data : option A;
  error : option string
}.
Arguments mkResult {A}.
Arguments success {A}.
Arguments data {A}.
Arguments error {A}.

(** [PredictEnergyConsumptionOutput], the two fields the dashboard reads. *)
Record PredictEnergyConsumptionOutput : Type := mkPrediction {
  predictedConsumption : Z;
  userUsagePatterns : string
}.

Record Toast : Type := mkToast {
  destructive : bool;
  title : string
}.

(** A call [updateSwitchState(id, name, state)] and whether the remote
    write behind it succeeded. *)
Record WriteCall : Type := mkWriteCall {
  w_id : Z;
  w_name : option string;
  w_state : bool;
  w_success : bool
}.

(** The server actions of app/actions, as the dashboard sees them. *)
Record Actions : Type := mkActions {
  runEnergyPrediction : ActionResult PredictEnergyConsumptionOutput;
  runIntelligentSwitchControl :
    IntelligentSwitchControlInput →
    ActionResult IntelligentSwitchControlOutput;
  updateSwitchState : Z → option string → bool → ActionResult unit
}.

(** The React state of [Dashboard] that the handlers touch, and a log of
    what left the process. *)
Record App : Type := mkApp {
  prediction : option PredictEnergyConsumptionOutput;
  switches : list SwitchState;
  userPreferences : string;
  isPredictionLoading : bool;
  isOptimizing : bool;
  aiReasoning : string;
  toasts : list Toast;
  predictionCalls : nat;
  policyCalls : list IntelligentSwitchControlInput;
  writes : list WriteCall
}.

Definition setPrediction (p : option PredictEnergyConsumptionOutput)
    (a : App) : App :=
  mkApp p (switches a) (userPreferences a) (isPredictionLoading a)
    (isOptimizing a) (aiReasoning a) (toasts a) (predictionCalls a)
    (policyCalls a) (writes a).

Definition setSwitches (l : list SwitchState) (a : App) : App :=
  mkApp (prediction a) l (userPreferences a) (isPredictionLoading a)
    (isOptimizing a) (aiReasoning a) (toasts a) (predictionCalls a)
    (policyCalls a) (writes a).

Definition setIsPredictionLoading (b : bool) (a : App) : App :=
  mkApp (prediction a) (switches a) (userPreferences a) b
    (isOptimizing a) (aiReasoning a) (toasts a) (predictionCalls a)
    (policyCalls a) (writes a).

Definition setIsOptimizing (b : bool) (a : App) : App :=
  mkApp (prediction a) (switches a) (userPreferences a)
    (isPredictionLoading a) b (aiReasoning a) (toasts a)
    (predictionCalls a) (policyCalls a) (writes a).

Definition setAiReasoning (s : string) (a : App) : App :=
  mkApp (prediction a) (switches a) (userPreferences a)
    (isPredictionLoading a) (isOptimizing a) s (toasts a)
    (predictionCalls a) (policyCalls a) (writes a).

Definition toast (t : Toast) (a : App) : App :=
  mkApp (prediction a) (switches a) (userPreferences a)
    (isPredictionLoading a) (isOptimizing a) (aiReasoning a)
    (toasts a ++ [t]) (predictionCalls a) (policyCalls a) (writes a).

Definition logPredictionCall (a : App) : App :=
  mkApp (prediction a) (switches a) (userPreferences a)
    (isPredictionLoading a) (isOptimizing a) (aiReasoning a) (toasts a)
    (S (predictionCalls a)) (policyCalls a) (writes a).

Definition logPolicyCall (i : IntelligentSwitchControlInput) (a : App)
    : App :=
  mkApp (prediction a) (switches a) (userPreferences a)
    (isPredictionLoading a) (isOptimizing a) (aiReasoning a) (toasts a)
    (predictionCalls a) (policyCalls a ++ [i]) (writes a).

Definition logWrites (ws : list WriteCall) (a : App) : App :=
  mkApp (prediction a) (switches a) (userPreferences a)
    (isPredictionLoading a) (isOptimizing a) (aiReasoning a) (toasts a)
    (predictionCalls a) (policyCalls a) (writes a ++ ws).

(** [!newSwitchDbStates[i]]: past the end of the array the element is
    [undefined], whose negation is [true]. *)
Definition notAt (l : list bool) (i : nat) : bool :=
  match l !! i with
  | Some b => negb b
  | None => true
  end.

(** [switches.map((s, i) => ({...s, state: !newSwitchDbStates[i]}))] *)
Definition updatedSwitches (sw : list SwitchState) (db : list bool)
    : list SwitchState :=
  imap (λ i s, {| id := id s; name := name s; state := notAt db i |}) sw.

(** The call made for one switch, with the outcome the action reports. *)
Definition writeCall (act : Actions) (s : SwitchState) : WriteCall :=
  {| w_id := id s; w_name := name s; w_state := state s;
     w_success := success (updateSwitchState act (id s) (name s) (state s)) |}.

(** [updateAllSwitches]: the optimistic local update, then one call per
    switch whose promise is dropped ("fire and forget"). *)
Definition updateAllSwitches (act : Actions) (a : App) (db : list bool)
    : App :=
  let updated := updatedSwitches (switches a) db in
  logWrites (writeCall act <$> updated) (setSwitches updated a).

(** [prev.map(s => s.id === id ? {...s, state: b} : s)] *)
Definition setStateOf (switchId : Z) (b : bool) (l : list SwitchState)
    : list SwitchState :=
  (λ s, if decide (id s = switchId)
        then {| id := id s; name := name s; state := b |} else s) <$> l.

(** [handleSwitchChange]: a manual toggle. *)
Definition handleSwitchChange (act : Actions) (a : App) (switchId : Z)
    (checked : bool) : App :=
  match findIndex switchId (switches a) with
  | None => a
  | Some (_, targetSwitch) =>
      let a1 :=
        setAiReasoning ""
          (setSwitches (setStateOf switchId checked (switches a)) a) in
      let result := updateSwitchState act switchId (name targetSwitch) checked in
      let a2 :=
        logWrites [mkWriteCall switchId (name targetSwitch) checked
                     (success result)] a1 in
      if success result then a2
      else setSwitches (setStateOf switchId (negb checked) (switches a2))
             (toast (mkToast true "Update Failed") a2)
  end.

(** [handlePrediction] *)
Definition handlePrediction (act : Actions) (a : App) : App :=
  let a1 := logPredictionCall (setAiReasoning "" (setIsPredictionLoading true a)) in
  let result := runEnergyPrediction act in
  let a2 :=
    match success result, data result with
    | true, Some d => toast (mkToast false "Prediction Ready") (setPrediction (Some d) a1)
    | _, _ => toast (mkToast true "Prediction Failed") a1
    end in
  setIsPredictionLoading false a2.

(** The argument built for [runIntelligentSwitchControl]. *)
Definition policyInput (a : App) (dataForOptimization : EnergyData)
    (latestPrediction : PredictEnergyConsumptionOutput)
    : IntelligentSwitchControlInput :=
  {| in_voltage := voltage dataForOptimization;
     in_current := current dataForOptimization;
     in_batteryLevel := batteryLevel dataForOptimization;
     in_powerConsumption := power dataForOptimization;
     in_predictedUsage := predictedConsumption latestPrediction;
     in_userPreferences := userPreferences a;
     in_userUsagePatterns := userUsagePatterns latestPrediction |}.

(** [handleOptimization], with the continuation of the policy promise run
    to its end before anything else changes the state: the array of
    switches that [updateAllSwitches] captured is then the held one. The
    case of a list that changed while the call was pending is
    [updateAllSwitchesWith] below. *)
Definition handleOptimization (act : Actions) (a : App)
    (dataForOptimization : EnergyData) (isAutomatic : bool) : App :=
  let a1 :=
    match prediction a with
    | None => handlePrediction act a
    | Some _ => a
    end in
  match prediction a1 with
  | None =>
      setIsOptimizing false (toast (mkToast true "Cannot Optimize") a1)
  | Some latestPrediction =>
      let input := policyInput a1 dataForOptimization latestPrediction in
      let a2 := logPolicyCall input (setIsOptimizing true a1) in
      let result := runIntelligentSwitchControl act input in
      let a3 :=
        match success result, data result with
        | true, Some out =>
            toast (mkToast false
                     (if isAutomatic then "Low Battery Action"
                      else "Optimization Complete"))
              (setAiReasoning (reasoning out)
                 (updateAllSwitches act a2 (newSwitchDbStates out)))
        | _, _ => toast (mkToast true "Optimization Failed") a2
        end in
      setIsOptimizing false a3
  end.

(** ** Device control surface *)

Module Firmware.

Inductive Level : Type := LOW | HIGH.

#[global] Instance Level_eq_dec : EqDecision Level.
Proof. solve_decision. Defined.

(** What [streamCallback] receives, after the Arduino [String] calls on
    the path: [StateUpdate] when [dataPath] ends with "/state", with
    [dataPath.toInt()] of the rest, the reported data type and the
    boolean payload; [Json] for a JSON payload, with [key.toInt()] and
    the state found under each key ([None] when [result.success] is
    false) and whether [dataPath] is "/". *)
Inductive StreamData : Type :=
| StateUpdate (switchId : Z) (dataType : string) (payload : bool)
| Json (atRoot : bool) (entries : list (Z * option bool))
| OtherData.

(** Pin levels last written, by GPIO number. *)
Definition digitalWrite (pin : Z) (lvl : Level) (gpio : gmap Z Level)
    : gmap Z Level :=
  <[pin := lvl]> gpio.

(** The firmware with the relay pins 13, 14, 27, 26, 25. *)
Module NC.

Definition getPinForSwitch (switchId : Z) : Z :=
  match switchId with
  | 1 => 13
  | 2 => 14
  | 3 => 27
  | 4 => 26
  | 5 => 25
  | _ => -1
  end.

(** [switchState ? LOW : HIGH] *)
Definition levelFor (switchState : bool) : Level :=
  if switchState then LOW else HIGH.

Definition writeSwitch (switchId : Z) (switchState : bool)
    (gpio : gmap Z Level) : gmap Z Level :=
  if 0 <? switchId then
    let pin := getPinForSwitch switchId in
    if decide (pin ≠ -1) then digitalWrite pin (levelFor switchState) gpio
    else gpio
  else gpio.

Definition streamCallback (d : StreamData) (gpio : gmap Z Level)
    : gmap Z Level :=
  match d with
  | StateUpdate switchId dataType payload =>
      writeSwitch switchId (String.eqb dataType "boolean" && payload) gpio
  | Json true entries =>
      foldl (λ g e,
               match e.2 with
               | Some switchState => writeSwitch e.1 switchState g
               | None => g
               end) gpio entries
  | _ => gpio
  end.

End NC.

(** The example sketch, pins 23, 22, 21, 19, 18. *)
Module Example.

Definition getPinForSwitch (switchId : Z) : Z :=
  match switchId with
  | 1 => 23
  | 2 => 22
  | 3 => 21
  | 4 => 19
  | 5 => 18
  | _ => -1
  end.

(** [switchState ? HIGH : LOW] *)
Definition levelFor (switchState : bool) : Level :=
  if switchState then HIGH else LOW.

Definition writeSwitch (switchId : Z) (switchState : bool)
    (gpio : gmap Z Level) : gmap Z Level :=
  if 0 <? switchId then
    let pin := getPinForSwitch switchId in
    if decide (pin ≠ -1) then digitalWrite pin (levelFor switchState) gpio
    else gpio
  else gpio.

Definition streamCallback (d : StreamData) (gpio : gmap Z Level)
    : gmap Z Level :=
  match d with
  | StateUpdate switchId _ payload => writeSwitch switchId payload gpio
  | Json _ entries =>
      foldl (λ g e,
               match e.2 with
               | Some switchState => writeSwitch e.1 switchState g
               | None => g
               end) gpio entries
  | OtherData => gpio
  end.

End Example.

End Firmware.

(** ** Auxiliary notions and sample data used in the statements *)

Definition defaultsWithLevel (b : Z) : EnergyData :=
  mkEnergyData 0 0 b 0 0 0 0 0.

Definition specSequence : list Z := [50; 35; 20; 15; 45; 30; 10].

(** The fields that the ingest resolves with [??]. *)
Inductive Field : Type :=
  FVoltage | FCurrent | FBatteryLevel | FTemperature | FHumidity.

Definition held (f : Field) (e : EnergyData) : Z :=
  match f with
  | FVoltage => voltage e
  | FCurrent => current e
  | FBatteryLevel => batteryLevel e
  | FTemperature => temperature e
  | FHumidity => humidity e
  end.

Definition received (f : Field) (ld : LatestData) : option Z :=
  match f with
  | FVoltage => ld_voltage ld
  | FCurrent => ld_current ld
  | FBatteryLevel => ld_batteryLevel ld
  | FTemperature => ld_temperature ld
  | FHumidity => ld_humidity ld
  end.

(** The snapshot held after a stream, for the current revision. *)
Definition heldAfter (INITIAL_ENERGY_DATA : EnergyData)
    (snapshots : list LatestData) : EnergyData :=
  Guard.energyData
    (foldl (λ st ld, (Guard.step INITIAL_ENERGY_DATA st (Some ld)).1)
       (Guard.mounted INITIAL_ENERGY_DATA) snapshots).

Definition priorOfSpec (v : Z) : LatestData :=
  {| ld_voltage := Some v; ld_current := Some 2; ld_batteryLevel := Some 60;
     ld_power := None; ld_temperature := None; ld_humidity := None;
     ld_totalConsumption := None; ld_energyRemain := None |}.

(** The invariant of the held list: strictly ascending ids, hence at most
    one entry per relay id. *)
Definition ascendingIds (l : list SwitchState) : Prop :=
  StronglySorted Z.lt (id <$> l).

Definition relay (k : Z) (ui : bool) : SwitchState :=
  {| id := k; name := None; state := ui |}.

Definition remote (w : bool) : RemoteSwitch :=
  {| rs_name := None; rs_state := Some w |}.

Definition fiveOff : list SwitchState :=
  [relay 1 false; relay 2 false; relay 3 false; relay 4 false; relay 5 false].

Definition remoteSample : list (string * RemoteSwitch) :=
  [("1", remote false); ("2", remote true); ("3", remote false);
   ("7", remote false)].

Definition noActions : Actions :=
  {| runEnergyPrediction := mkResult false None (Some "offline");
     runIntelligentSwitchControl := λ _, mkResult false None (Some "offline");
     updateSwitchState := λ _ _ _, mkResult false None (Some "offline") |}.

Definition appWith (p : option PredictEnergyConsumptionOutput)
    (sw : list SwitchState) : App :=
  mkApp p sw "" false false "" [] 0 [] [].

Definition inputAt (b : Z) : IntelligentSwitchControlInput :=
  mkInput 12 2 b 24 30 "" "".

Definition twoOn : IntelligentSwitchControlOutput :=
  mkOutput false false true true true "HEALTHY band, two essential loads".

Definition allOn : IntelligentSwitchControlOutput :=
  mkOutput false false false false false "all on".

Definition allOff : IntelligentSwitchControlOutput :=
  mkOutput true true true true true "CRITICAL: battery below 10%".

(** The remote write fails for one relay and succeeds for the others. *)
Definition failingFor (k : Z) : Actions :=
  {| runEnergyPrediction := mkResult false None (Some "offline");
     runIntelligentSwitchControl := λ _, mkResult false None (Some "offline");
     updateSwitchState := λ switchId _ _,
       if decide (switchId = k) then mkResult false None (Some "timeout")
       else mkResult true None None |}.

(** ** Code beside the claims *)

(** The relay ingest of the earlier revision of the dashboard: no test for
    [NaN] or for a missing [state] (a missing state negates to [true]), an
    id that is not held is skipped, nothing is sorted. A [NaN] id equals no
    held id. *)
Definition processEntryV1 (acc : list SwitchState * bool)
    (entry : string * RemoteSwitch) : list SwitchState * bool :=
  let '(updatedSwitches, hasChanged) := acc in
  let '(key, s) := entry in
  let newUiState :=
    match rs_state s with
    | Some remoteState => negb remoteState
    | None => true
    end in
  match parseInt key with
  | Some switchId =>
      match findIndex switchId updatedSwitches with
      | Some (switchIndex, found) =>
          if Bool.eqb (state found) newUiState
          then (updatedSwitches, hasChanged)
          else (<[switchIndex :=
                   {| id := id found; name := rs_name s;
                      state := newUiState |}]> updatedSwitches, true)
      | None => (updatedSwitches, hasChanged)
      end
  | None => (updatedSwitches, hasChanged)
  end.

Definition onSwitchStatesV1 (prevSwitches : list SwitchState)
    (data : list (string * RemoteSwitch)) : list SwitchState * bool :=
  let '(updatedSwitches, hasChanged) :=
    foldl processEntryV1 (prevSwitches, false) data in
  if hasChanged then (updatedSwitches, true) else (prevSwitches, false).

(** A record the loop of dashboard.tsx does not skip. *)
Definition validEntry (entry : string * RemoteSwitch) : bool :=
  match entryId entry with
  | Some _ => true
  | None => false
  end.

(** Modelled from the spec: what the remote map holds for the relays just
    written, the server action [updateSwitchState] (app/actions, not among
    the sources) storing under the key of the relay id, as the stream
    paths of the firmware show ("/1/state"), the name and the encoded
    state. *)
Definition storeOf (ws : list WriteCall) : list (string * RemoteSwitch) :=
  (λ w, (pretty (w_id w),
         {| rs_name := w_name w;
            rs_state := Some (WireCodec.toWire (w_state w)) |})) <$> ws.

(** Number of held relays that are ON. *)
Definition heldOn (l : list SwitchState) : nat :=
  length (filter (λ s, state s = true) l).

(** A record with no field. *)
Definition emptyRecord : LatestData :=
  mkLatestData None None None None None None None None.

(** The snapshot held by the earlier revision after a stream. *)
Definition heldAfterV1 (INITIAL_ENERGY_DATA : EnergyData)
    (snapshots : list (option LatestData)) : EnergyData :=
  LatchGuard.energyData
    (foldl (λ st s, (LatchGuard.step st s).1)
       (LatchGuard.mounted INITIAL_ENERGY_DATA) snapshots).

(** The state of the earlier guard after a stream. *)
Definition latchAfter (INITIAL_ENERGY_DATA : EnergyData)
    (snapshots : list (option LatestData)) : LatchGuard.State :=
  foldl (λ st s, (LatchGuard.step st s).1)
    (LatchGuard.mounted INITIAL_ENERGY_DATA) snapshots.

(** The level a snapshot carries, if any. *)
Definition carriedLevel (s : option LatestData) : option Z :=
  match s with
  | Some ld => ld_batteryLevel ld
  | None => None
  end.

(** The timers of the sketches. [millis()] is an [unsigned long], 32 bits
    on the ESP32: the subtraction wraps around. Both reads of [millis()]
    in one pass of [loop] are taken to return the same value. *)
Module Timer.

Definition wrap32 (z : Z) : Z := z mod 2 ^ 32.

(** [millis() - last > interval], for the value [now] that this read of
    [millis()] returned. *)
Definition due (now last interval : Z) : bool :=
  interval <? wrap32 (now - last).

(** The example sketch: [if (millis() - lastDataSend > 30000)
    { lastDataSend = millis(); sendSensorData(); }]. [tTest] and [tStore]
    are the two reads of [millis()]. The result is the new [lastDataSend]
    and whether the data was sent. *)
Definition loopExample (tTest tStore lastDataSend : Z) : Z * bool :=
  if due tTest lastDataSend 30000 then (tStore, true)
  else (lastDataSend, false).

(** The NC firmware: sensors every 2 s, the store every 10 s. The second
    test reads [millis()] again, after [readAllSensors] and [displayOnLCD]
    when they ran: the four reads are four values. The state is
    [(lastSensorRead, lastFirebaseUpdate)], the flags tell whether
    [readAllSensors] and [sendSensorDataToFirebase] ran. *)
Definition loopNC (tTest1 tStore1 tTest2 tStore2 : Z) (st : Z * Z)
    : (Z * Z) * (bool * bool) :=
  let '(lastSensorRead, lastFirebaseUpdate) := st in
  let readNow := due tTest1 lastSensorRead 2000 in
  let sendNow := due tTest2 lastFirebaseUpdate 10000 in
  ((if readNow then tStore1 else lastSensorRead,
    if sendNow then tStore2 else lastFirebaseUpdate),
   (readNow, sendNow)).

End Timer.

Definition answering (out : IntelligentSwitchControlOutput) : Actions :=
  {| runEnergyPrediction := mkResult false None None;
     runIntelligentSwitchControl := λ _, mkResult true (Some out) None;
     updateSwitchState := λ _ _ _, mkResult true None None |}.

Definition forecast : PredictEnergyConsumptionOutput :=
  mkPrediction 30 "evening peak".

(** No two neighbours of a list of flags are both raised. *)
Fixpoint noTwoInARow (l : list bool) : bool :=
  match l with
  | a :: (b :: _) as rest => negb (a && b) && noTwoInARow rest
  | _ => true
  end.

(** The latch is set only while the held level is below the threshold. *)
Definition latchSound (st : LatchGuard.State) : Prop :=
  LatchGuard.lowBatteryOptimizationTriggered st = true →
  batteryLevel (LatchGuard.energyData st) < 40.

(** The initial load of the NC firmware: a JSON payload at the root. *)
Definition loadNC (gpio : gmap Z Firmware.Level)
    (entries : list (Z * option bool)) : gmap Z Firmware.Level :=
  Firmware.NC.streamCallback (Firmware.Json true entries) gpio.

(** What reaches the guard of dashboard.tsx: a snapshot handled by the
    [onValue] callback, or a render, after which the effect copies the
    held level into the ref. *)
Inductive GuardEvent : Type :=
| Snapshot (s : option LatestData)
| Render.

(** The requests made along a stream of events, one flag per snapshot. *)
Fixpoint runEvents (INITIAL_ENERGY_DATA : EnergyData) (st : Guard.State)
    (events : list GuardEvent) : list bool :=
  match events with
  | [] => []
  | Snapshot s :: rest =>
      let '(st', fired) := Guard.onEnergyValue INITIAL_ENERGY_DATA st s in
      fired :: runEvents INITIAL_ENERGY_DATA st' rest
  | Render :: rest =>
      runEvents INITIAL_ENERGY_DATA (Guard.commitEffects st) rest
  end.

(** A stream in which a render follows every snapshot. *)
Definition rendered (snapshots : list (option LatestData))
    : list GuardEvent :=
  snapshots ≫= λ s, [Snapshot s; Render].

(** [updateAllSwitches] as the closure runs it: [captured] is the array
    [switches] of the render in which the callback was created, mapped and
    stored over whatever is held when the answer arrives. *)
Definition updateAllSwitchesWith (captured : list SwitchState)
    (act : Actions) (a : App) (db : list bool) : App :=
  let updated := updatedSwitches captured db in
  logWrites (writeCall act <$> updated) (setSwitches updated a).

(** Actions whose forecast succeeds. *)
Definition forecasting : Actions :=
  {| runEnergyPrediction := mkResult true (Some forecast) None;
     runIntelligentSwitchControl := λ _, mkResult true (Some allOff) None;
     updateSwitchState := λ _ _ _, mkResult true None None |}.

(** * Properties *)

(** ** The embedding on concrete inputs *)

Example parseInt_plain : parseInt "3" = Some 3.
Proof. reflexivity. Qed.

Example parseInt_prefix : parseInt "  -12px" = Some (-12).
Proof. reflexivity. Qed.

Example parseInt_leading_zero : parseInt "01" = Some 1.
Proof. reflexivity. Qed.

Example parseInt_NaN : parseInt "state" = None.
Proof. reflexivity. Qed.

Example nameOrDefault_unnamed : nameOrDefault (Some "") 7 = "Switch 7".
Proof. reflexivity. Qed.

Example sortById_is_stable :
  sortById [relay 2 true; relay 1 false; relay 2 false]
  = [relay 1 false; relay 2 true; relay 2 false].
Proof. reflexivity. Qed.

Example onSwitchStates_sample :
  onSwitchStates fiveOff remoteSample
  = ([relay 1 true; relay 2 false; relay 3 true; relay 4 false;
      relay 5 false; mkSwitchState 7 (Some "Switch 7") true], true).
Proof. reflexivity. Qed.

Example onSwitchStates_nothing_new :
  onSwitchStates fiveOff [("2", remote true); ("x", remote false)]
  = (fiveOff, false).
Proof. reflexivity. Qed.

Example newEnergyData_full :
  newEnergyData (defaultsWithLevel 80) (priorOfSpec 12)
  = mkEnergyData 12 2 60 24 0 0 0 0.
Proof. reflexivity. Qed.

Example updatedSwitches_past_the_decision :
  state <$> updatedSwitches (fiveOff ++ [relay 7 false])
              [true; true; true; true; true]
  = [false; false; false; false; false; true].
Proof. reflexivity. Qed.

(** ** ThresholdGuard *)

Section GuardFacts.

Variable INITIAL_ENERGY_DATA : EnergyData.

Lemma newEnergyData_level (ld : LatestData) (b : Z) :
  ld_batteryLevel ld = Some b →
  batteryLevel (newEnergyData INITIAL_ENERGY_DATA ld) = b.
Proof. intros H. unfold newEnergyData. simpl. now rewrite H. Qed.

Lemma mergeWithPrev_level (prev : EnergyData) (ld : LatestData) (b : Z) :
  ld_batteryLevel ld = Some b →
  batteryLevel (mergeWithPrev prev ld) = b.
Proof. intros H. unfold mergeWithPrev. simpl. now rewrite H. Qed.

(** From any state whose ref holds [p], the flags are the crossings
    counted from [p]. *)
Lemma Guard_run_crossings (lds : list LatestData) :
  ∀ (bs : list Z) (st : Guard.State) (p : Z),
    ld_batteryLevel <$> lds = Some <$> bs →
    Guard.previousBatteryLevel st = Some p →
    Guard.run INITIAL_ENERGY_DATA st (Some <$> lds) = crossings 40 p bs.
Proof.
  induction lds as [|ld lds IH]; intros bs st p Hbs Hp.
  - destruct bs; [reflexivity | discriminate].
  - destruct bs as [|b bs]; [discriminate|].
    injection Hbs as Hb Hrest.
    cbn [fmap list_fmap Guard.run Guard.step Guard.onEnergyValue].
    rewrite Hp, Hb. cbn [Guard.shouldAutomate js_lt crossings].
    f_equal; [apply andb_comm|].
    apply IH; [exact Hrest|].
    cbn. f_equal. now apply newEnergyData_level.
Qed.

(** The latch of the earlier revision is redundant on streams that carry
    a level: it is set only while the held level is below the
    threshold. *)
Lemma LatchGuard_run_crossings (lds : list LatestData) :
  ∀ (bs : list Z) (st : LatchGuard.State),
    ld_batteryLevel <$> lds = Some <$> bs →
    (LatchGuard.lowBatteryOptimizationTriggered st = true →
     batteryLevel (LatchGuard.energyData st) < 40) →
    LatchGuard.run st (Some <$> lds)
    = crossings 40 (batteryLevel (LatchGuard.energyData st)) bs.
Proof.
  induction lds as [|ld lds IH]; intros bs st Hbs Hinv.
  - destruct bs; [reflexivity | discriminate].
  - destruct bs as [|b bs]; [discriminate|].
    injection Hbs as Hb Hrest.
    cbn [fmap list_fmap LatchGuard.run LatchGuard.step].
    rewrite Hb. cbn [nullish crossings].
    pose proof (mergeWithPrev_level (LatchGuard.energyData st) ld b Hb) as Hlvl.
    destruct (Z.ltb_spec b 40) as [Eb|Eb];
      destruct (Z.leb_spec 40 (batteryLevel (LatchGuard.energyData st)))
        as [Ep|Ep];
      destruct (LatchGuard.lowBatteryOptimizationTriggered st) eqn:Ef;
      cbn [andb negb];
      try (exfalso; specialize (Hinv eq_refl); lia);
      try (destruct (Z.leb_spec 40 b); [|]; try lia);
      (f_equal;
       match goal with
       | |- LatchGuard.run ?s _ = _ =>
           rewrite (IH bs s Hrest); cbn [LatchGuard.energyData];
           [now rewrite Hlvl
           | cbn [LatchGuard.lowBatteryOptimizationTriggered
                  LatchGuard.energyData];
             rewrite Hlvl; intros; try discriminate; lia]
       end).
Qed.

(** The callback requests the optimisation exactly when the ref holds a
    level of at least 40 and the record carries a level below 40. *)
Lemma onEnergyValue_fires_iff (st : Guard.State) (ld : LatestData) :
  (Guard.onEnergyValue INITIAL_ENERGY_DATA st (Some ld)).2 = true
  ↔ ∃ p b, Guard.previousBatteryLevel st = Some p
           ∧ ld_batteryLevel ld = Some b ∧ 40 ≤ p ∧ b < 40.
Proof.
  cbn [Guard.onEnergyValue snd]. unfold Guard.shouldAutomate, js_lt.
  destruct (Guard.previousBatteryLevel st) as [p|],
    (ld_batteryLevel ld) as [b|]; split;
    try discriminate; try (intros (p' & b' & ? & ? & _); discriminate).
  - intros H. apply andb_true_iff in H as [Hb Hp].
    apply Z.ltb_lt in Hb. apply Z.leb_le in Hp. exists p, b. auto.
  - intros (p' & b' & [= <-] & [= <-] & Hp & Hb).
    apply andb_true_iff. split; [now apply Z.ltb_lt | now apply Z.leb_le].
Qed.

End GuardFacts.

(** When a render completes between consecutive observations: for every
    stream of snapshots that carry battery levels,
    the automatic optimisation is requested exactly at the observations
    whose new level is below 40 while the level held before it is at least
    40, where the level held before the first observation is the one of
    the default snapshot [INITIAL_ENERGY_DATA] (the ref is already filled
    when the first snapshot arrives; only an empty ref, which the null test
    covers, never fires). Both revisions of the dashboard agree. For the
    sequence 50, 35, 20, 15, 45, 30, 10 the request is made exactly twice,
    on 50->35 and on 45->30, whatever the default level, and never while
    the level stays below 40. *)
Theorem guard_fires_exactly_on_crossings :
  ∀ (INITIAL_ENERGY_DATA : EnergyData) (lds : list LatestData)
    (bs : list Z),
    ld_batteryLevel <$> lds = Some <$> bs →
    Guard.run INITIAL_ENERGY_DATA (Guard.mounted INITIAL_ENERGY_DATA)
      (Some <$> lds)
    = crossings 40 (batteryLevel INITIAL_ENERGY_DATA) bs
    ∧ LatchGuard.run (LatchGuard.mounted INITIAL_ENERGY_DATA) (Some <$> lds)
      = crossings 40 (batteryLevel INITIAL_ENERGY_DATA) bs
    ∧ (∀ st ld,
         (Guard.onEnergyValue INITIAL_ENERGY_DATA st (Some ld)).2 = true
         ↔ ∃ p b, Guard.previousBatteryLevel st = Some p
                  ∧ ld_batteryLevel ld = Some b ∧ 40 ≤ p ∧ b < 40)
    ∧ (bs = specSequence →
       Guard.run INITIAL_ENERGY_DATA (Guard.mounted INITIAL_ENERGY_DATA)
         (Some <$> lds)
       = [false; true; false; false; false; true; false]
       ∧ count_true
           (Guard.run INITIAL_ENERGY_DATA (Guard.mounted INITIAL_ENERGY_DATA)
              (Some <$> lds)) = 2%nat).
Proof.
  intros I lds bs Hbs.
  assert (HG : Guard.run I (Guard.mounted I) (Some <$> lds)
               = crossings 40 (batteryLevel I) bs).
  { apply Guard_run_crossings; [exact Hbs | reflexivity]. }
  split; [exact HG|].
  split.
  { apply (LatchGuard_run_crossings lds bs (LatchGuard.mounted I) Hbs).
    cbn. discriminate. }
  split; [intros st ld; apply onEnergyValue_fires_iff|].
  intros ->. rewrite HG. unfold specSequence. cbn [crossings].
  rewrite andb_false_r. split; reflexivity.
Qed.

(** C1 (what the code does): the guard requests the optimisation on an
    observation that has no observed predecessor, and again while the
    level stays below 40. The ref is initialised to [null] and tested
    against [null], but the effect of the first render has already stored
    the level of the default snapshot in it when the first record
    arrives: with a default level of at least 40, a first record below 40
    requests the optimisation. And the callback never writes the ref
    (only the effect of a later render does), so of two records below 40
    handled before that render, both are compared with the same earlier
    level of at least 40 and both request it. *)
Theorem guard_fires_without_a_previous_observation :
  ∀ (INITIAL_ENERGY_DATA : EnergyData) (st : Guard.State)
    (ld1 ld2 : LatestData) (p b1 b2 : Z),
    ld_batteryLevel ld1 = Some b1 → b1 < 40 →
    ld_batteryLevel ld2 = Some b2 → b2 < 40 →
    Guard.previousBatteryLevel (Guard.initial INITIAL_ENERGY_DATA) = None
    ∧ Guard.previousBatteryLevel (Guard.mounted INITIAL_ENERGY_DATA)
      = Some (batteryLevel INITIAL_ENERGY_DATA)
    ∧ (40 ≤ batteryLevel INITIAL_ENERGY_DATA →
       runEvents INITIAL_ENERGY_DATA (Guard.mounted INITIAL_ENERGY_DATA)
         [Snapshot (Some ld1)] = [true])
    ∧ (Guard.previousBatteryLevel st = Some p → 40 ≤ p →
       runEvents INITIAL_ENERGY_DATA st
         [Snapshot (Some ld1); Snapshot (Some ld2)] = [true; true]).
Proof.
  intros I st ld1 ld2 p b1 b2 H1 Hb1 H2 Hb2.
  assert (Hfire : ∀ st' ld b q,
            ld_batteryLevel ld = Some b → b < 40 →
            Guard.previousBatteryLevel st' = Some q → 40 ≤ q →
            (Guard.onEnergyValue I st' (Some ld)).2 = true).
  { intros st' ld b q Hl Hb Hq Hge.
    apply onEnergyValue_fires_iff. exists q, b. auto. }
  split; [reflexivity|]. split; [reflexivity|]. split.
  - intros Hge. cbn [runEvents].
    pose proof (Hfire (Guard.mounted I) ld1 b1 _ H1 Hb1 eq_refl Hge) as Hf.
    destruct (Guard.onEnergyValue I (Guard.mounted I) (Some ld1)).
    cbn [snd] in Hf. now rewrite Hf.
  - intros Hp Hge. cbn [runEvents].
    pose proof (Hfire st ld1 b1 p H1 Hb1 Hp Hge) as Hf1.
    destruct (Guard.onEnergyValue I st (Some ld1)) as [st1 f1] eqn:E1.
    cbn [snd] in Hf1. subst f1.
    assert (Hp1 : Guard.previousBatteryLevel st1 = Some p).
    { cbn in E1. injection E1 as <- _. exact Hp. }
    pose proof (Hfire st1 ld2 b2 p H2 Hb2 Hp1 Hge) as Hf2.
    destruct (Guard.onEnergyValue I st1 (Some ld2)).
    cbn [snd] in Hf2. now rewrite Hf2.
Qed.

Lemma guard_fires_without_a_previous_observation_witness :
  (ld_batteryLevel (levelOnly 35) = Some 35 ∧ 35 < 40)
  ∧ runEvents (defaultsWithLevel 50)
      (Guard.step (defaultsWithLevel 50) (Guard.mounted (defaultsWithLevel 50))
         (Some (levelOnly 50))).1
      [Snapshot (Some (levelOnly 35)); Snapshot (Some (levelOnly 30))]
    = [true; true].
Proof.
  split; [split; reflexivity|].
  refine (proj2 (proj2 (proj2
    (guard_fires_without_a_previous_observation (defaultsWithLevel 50)
       (Guard.step (defaultsWithLevel 50)
          (Guard.mounted (defaultsWithLevel 50)) (Some (levelOnly 50))).1
       (levelOnly 35) (levelOnly 30) 50 35 30
       eq_refl _ eq_refl _))) eq_refl _); lia.
Defined.

(** ** TelemetryIngest *)

(** C5 (amended): in dashboard.tsx every field present in the raw record
    replaces the held value and every missing field takes the value of the
    default snapshot [INITIAL_ENERGY_DATA], whatever was held before; power
    is voltage*current exactly when both are present and non-zero in the
    raw record and the default power otherwise. So [{batteryLevel:55}]
    yields the default snapshot with level 55. In the earlier revision a
    missing field carries the held value forward and power, unless both
    factors are in the raw record, is the held power: there
    [{batteryLevel:55}] after [{voltage:12,current:2,batteryLevel:60}]
    with power 24 yields voltage 12, current 2, level 55, power 24. *)
Theorem telemetry_merge_resolution :
  ∀ (INITIAL_ENERGY_DATA prev : EnergyData) (ld : LatestData),
    (∀ f, held f (newEnergyData INITIAL_ENERGY_DATA ld)
          = received f ld ?? held f INITIAL_ENERGY_DATA)
    ∧ power (newEnergyData INITIAL_ENERGY_DATA ld)
      = match ld_voltage ld, ld_current ld with
        | Some v, Some c =>
            if (v =? 0) || (c =? 0) then power INITIAL_ENERGY_DATA else v * c
        | _, _ => power INITIAL_ENERGY_DATA
        end
    ∧ newEnergyData INITIAL_ENERGY_DATA (levelOnly 55)
      = mkEnergyData (voltage INITIAL_ENERGY_DATA)
          (current INITIAL_ENERGY_DATA) 55 (power INITIAL_ENERGY_DATA)
          (temperature INITIAL_ENERGY_DATA) (humidity INITIAL_ENERGY_DATA)
          (totalConsumption INITIAL_ENERGY_DATA)
          (energyRemain INITIAL_ENERGY_DATA)
    ∧ (∀ f, held f (mergeWithPrev prev ld) = received f ld ?? held f prev)
    ∧ power (mergeWithPrev prev ld)
      = match ld_voltage ld, ld_current ld with
        | Some v, Some c => if (v =? 0) || (c =? 0) then power prev else v * c
        | _, _ => power prev
        end
    ∧ mergeWithPrev (mergeWithPrev prev (priorOfSpec 12)) (levelOnly 55)
      = mkEnergyData 12 2 55 24 (temperature prev) (humidity prev)
          (totalConsumption prev) (energyRemain prev).
Proof.
  intros I prev ld.
  assert (Hp : ∀ fb, powerOf ld fb
                = match ld_voltage ld, ld_current ld with
                  | Some v, Some c => if (v =? 0) || (c =? 0) then fb else v * c
                  | _, _ => fb
                  end).
  { intros fb. unfold powerOf, truthy.
    destruct (ld_voltage ld) as [v|], (ld_current ld) as [c|]; cbn;
      try reflexivity.
    - destruct (v =? 0), (c =? 0); reflexivity.
    - destruct (v =? 0); reflexivity. }
  repeat split.
  - intros []; reflexivity.
  - apply Hp.
  - intros []; reflexivity.
  - apply Hp.
Qed.

(** C5 as stated fails on dashboard.tsx: the snapshot held after
    [{batteryLevel:55}] does not depend on what was held before, so for no
    default snapshot can it carry forward both a prior voltage of 12 and,
    in another run, a prior voltage of 13. *)
Lemma telemetry_merge_forgets_prior :
  ¬ ∃ INITIAL_ENERGY_DATA : EnergyData,
      voltage (heldAfter INITIAL_ENERGY_DATA [priorOfSpec 12; levelOnly 55])
      = 12
      ∧ voltage (heldAfter INITIAL_ENERGY_DATA [priorOfSpec 13; levelOnly 55])
        = 13.
Proof. intros [I [H12 H13]]. cbn in H12, H13. congruence. Qed.

(** ** RelayStateIngest *)

Section RelayFacts.

Implicit Types (l : list SwitchState) (k : Z) (c : bool).

Lemma findIndex_cons x l k :
  findIndex k (x :: l)
  = if decide (id x = k) then Some (0%nat, x)
    else prod_map S (λ y, y) <$> findIndex k l.
Proof. reflexivity. Qed.

Lemma heldState_nil k : heldState [] k = None.
Proof. reflexivity. Qed.

Lemma heldState_cons x l k :
  heldState (x :: l) k
  = if decide (id x = k) then Some (state x) else heldState l k.
Proof.
  unfold heldState. rewrite findIndex_cons.
  case_decide; [reflexivity|].
  destruct (findIndex k l) as [[i y]|]; reflexivity.
Qed.

Lemma heldState_findIndex l k i x :
  findIndex k l = Some (i, x) → heldState l k = Some (state x).
Proof. unfold heldState. now intros ->. Qed.

Lemma findIndex_heldState l k b :
  heldState l k = Some b → ∃ i x, findIndex k l = Some (i, x) ∧ state x = b.
Proof.
  unfold heldState. destruct (findIndex k l) as [[i x]|]; [|discriminate].
  cbn. intros [= <-]. eauto.
Qed.

Lemma findIndex_id l k i x : findIndex k l = Some (i, x) → id x = k.
Proof. unfold findIndex. intros H. apply list_find_Some in H. tauto. Qed.

(** Overwriting the entry found for [k] by another entry with id [k]. *)
Lemma heldState_insert l : ∀ k i x y k',
  findIndex k l = Some (i, x) → id y = k →
  heldState (<[i:=y]> l) k'
  = if decide (k = k') then Some (state y) else heldState l k'.
Proof.
  induction l as [|a l IH]; intros k i x y k' Hf Hy; [discriminate|].
  rewrite findIndex_cons in Hf. case_decide as Ha.
  - injection Hf as <- <-. change (<[0%nat:=y]> (a :: l)) with (y :: l).
    rewrite !heldState_cons. subst k.
    rewrite Hy. repeat case_decide; congruence.
  - destruct (findIndex k l) as [[j z]|] eqn:Hj; [|discriminate].
    cbn in Hf. injection Hf as <- <-.
    change (<[S j:=y]> (a :: l)) with (a :: <[j:=y]> l).
    rewrite !heldState_cons. rewrite (IH k j z y k' Hj Hy).
    repeat case_decide; congruence.
Qed.

Lemma ids_insert l : ∀ k i x y,
  findIndex k l = Some (i, x) → id y = k →
  id <$> <[i:=y]> l = id <$> l.
Proof.
  intros k i x y Hf Hy.
  pose proof (findIndex_id _ _ _ _ Hf) as Hx.
  unfold findIndex in Hf. apply list_find_Some in Hf as [Hi _].
  rewrite list_fmap_insert. apply list_insert_id.
  rewrite list_lookup_fmap, Hi. cbn. congruence.
Qed.

(** Appending an entry. *)
Lemma heldState_snoc l y k' :
  heldState (l ++ [y]) k'
  = match heldState l k' with
    | Some b => Some b
    | None => if decide (id y = k') then Some (state y) else None
    end.
Proof.
  induction l as [|a l IH]; cbn [app].
  - rewrite heldState_cons, !heldState_nil. reflexivity.
  - rewrite !heldState_cons, IH.
    destruct (decide (id a = k')); reflexivity.
Qed.

Lemma findIndex_None l k :
  findIndex k l = None ↔ heldState l k = None.
Proof.
  unfold heldState. destruct (findIndex k l) as [[i x]|]; cbn; split;
    congruence.
Qed.

Lemma findIndex_None_notin l k : findIndex k l = None → k ∉ id <$> l.
Proof.
  unfold findIndex. intros H. apply list_find_None in H.
  intros Hin. apply list_elem_of_fmap in Hin as [x [-> Hx]].
  rewrite Forall_forall in H. now apply (H x Hx).
Qed.

(** *** One entry of the remote map *)

Lemma processEntry_skip l c e :
  entryId e = None → processEntry (l, c) e = (l, c).
Proof.
  destruct e as [key s]. unfold entryId, processEntry. cbn.
  destruct (rs_state s), (parseInt key); intros; congruence.
Qed.

Lemma entryId_Some key s k :
  entryId (key, s) = Some k ↔
  parseInt key = Some k ∧ ∃ w, rs_state s = Some w.
Proof.
  unfold entryId. cbn. destruct (rs_state s); split; intros H.
  - eauto.
  - tauto.
  - discriminate.
  - destruct H as [_ [w ?]]. discriminate.
Qed.

(** A record whose decoded state is already held changes nothing. *)
Lemma processEntry_unchanged l c key s k w :
  parseInt key = Some k → rs_state s = Some w →
  heldState l k = Some (negb w) →
  processEntry (l, c) (key, s) = (l, c).
Proof.
  intros Hk Hw Hh. unfold processEntry. rewrite Hk, Hw.
  apply findIndex_heldState in Hh as [i [x [-> Hx]]].
  rewrite Hx. now rewrite Bool.eqb_reflx.
Qed.

(** A newly observed id is appended. *)
Lemma processEntry_new l c key s k w :
  parseInt key = Some k → rs_state s = Some w →
  findIndex k l = None →
  processEntry (l, c) (key, s)
  = (l ++ [{| id := k; name := Some (nameOrDefault (rs_name s) k);
              state := negb w |}], true).
Proof. intros Hk Hw Hf. unfold processEntry. now rewrite Hk, Hw, Hf. Qed.

(** After a record for [k] the held state of [k] is its decoded state and
    no other id is affected. *)
Lemma processEntry_heldState l c key s k w k' :
  parseInt key = Some k → rs_state s = Some w →
  heldState (processEntry (l, c) (key, s)).1 k'
  = if decide (k = k') then Some (negb w) else heldState l k'.
Proof.
  intros Hk Hw. unfold processEntry. rewrite Hk, Hw.
  destruct (findIndex k l) as [[i x]|] eqn:Hf.
  - destruct (Bool.eqb (state x) (negb w)) eqn:Hb; cbn [fst].
    + apply Bool.eqb_prop in Hb. case_decide; [|reflexivity].
      subst k'. rewrite (heldState_findIndex _ _ _ _ Hf). now rewrite Hb.
    + rewrite (heldState_insert l k i x _ k' Hf); [reflexivity|].
      cbn. now apply findIndex_id in Hf.
  - cbn [fst]. rewrite heldState_snoc. cbn [id state].
    apply findIndex_None in Hf.
    destruct (decide (k = k')) as [<-|Hne].
    + now rewrite Hf.
    + destruct (heldState l k'); reflexivity.
Qed.

Lemma processEntry_ids_NoDup l c e :
  NoDup (id <$> l) → NoDup (id <$> (processEntry (l, c) e).1).
Proof.
  intros Hnd. destruct e as [key s].
  destruct (entryId (key, s)) as [k|] eqn:He.
  - apply entryId_Some in He as [Hk [w Hw]].
    unfold processEntry. rewrite Hk, Hw.
    destruct (findIndex k l) as [[i x]|] eqn:Hf.
    + destruct (Bool.eqb (state x) (negb w)); cbn [fst]; [exact Hnd|].
      rewrite (ids_insert l k i x); [exact Hnd | exact Hf |].
      cbn. now apply findIndex_id in Hf.
    + cbn [fst]. rewrite fmap_app. cbn.
      apply NoDup_app. split; [exact Hnd|]. split.
      * intros z Hz Hz'. apply list_elem_of_singleton in Hz'. subst z.
        now apply findIndex_None_notin in Hf.
      * apply NoDup_singleton.
  - now rewrite processEntry_skip.
Qed.

(** *** The whole map *)

Lemma foldl_processEntry_ids_NoDup data : ∀ l c,
  NoDup (id <$> l) →
  NoDup (id <$> (foldl processEntry (l, c) data).1).
Proof.
  induction data as [|e data IH]; intros l c Hnd; [exact Hnd|].
  cbn [foldl].
  destruct (processEntry (l, c) e) as [l1 c1] eqn:He.
  apply IH. change l1 with (l1, c1).1. rewrite <- He.
  now apply processEntry_ids_NoDup.
Qed.

(** With distinct ids in the map, the fold leaves every mentioned id at
    its decoded state and every other id as it was. *)
Lemma foldl_processEntry_heldState data : ∀ l c,
  NoDup (observedIds data) →
  (∀ key s k w, (key, s) ∈ data → parseInt key = Some k →
                rs_state s = Some w →
                heldState (foldl processEntry (l, c) data).1 k
                = Some (negb w))
  ∧ (∀ k, k ∉ observedIds data →
          heldState (foldl processEntry (l, c) data).1 k = heldState l k).
Proof.
  induction data as [|[key0 s0] data IH]; intros l c Hnd.
  - split; [intros ? ? ? ? Hin; inversion Hin | reflexivity].
  - cbn [foldl].
    destruct (entryId (key0, s0)) as [k0|] eqn:He.
    + pose proof He as He'. apply entryId_Some in He' as [Hk0 [w0 Hw0]].
      unfold observedIds in Hnd |- *. cbn [omap list_omap] in Hnd |- *.
      rewrite He in Hnd |- *. apply NoDup_cons in Hnd as [Hnotin Hnd].
      destruct (processEntry (l, c) (key0, s0)) as [l1 c1] eqn:Hp.
      destruct (IH l1 c1 Hnd) as [IH1 IH2].
      assert (Hl1 : ∀ k', heldState l1 k'
                    = if decide (k0 = k') then Some (negb w0)
                      else heldState l k').
      { intros k'. change l1 with (l1, c1).1. rewrite <- Hp.
        now apply processEntry_heldState. }
      split.
      * intros key s k w Hin Hk Hw.
        apply elem_of_cons in Hin as [Heq|Hin].
        -- injection Heq as -> ->.
           assert (k = k0) by congruence. assert (w = w0) by congruence.
           subst. rewrite (IH2 k0 Hnotin), Hl1.
           now case_decide.
        -- now apply (IH1 key s k w).
      * intros k Hk. apply not_elem_of_cons in Hk as [Hne Hk].
        rewrite (IH2 k Hk), Hl1. case_decide; congruence.
    + rewrite processEntry_skip by exact He.
      unfold observedIds in Hnd |- *. cbn [omap list_omap] in Hnd |- *.
      rewrite He in Hnd |- *.
      destruct (IH l c Hnd) as [IH1 IH2]. split; [|exact IH2].
      intros key s k w Hin Hk Hw.
      apply elem_of_cons in Hin as [Heq|Hin].
      * injection Heq as -> ->.
        assert (entryId (key0, s0) = Some k)
          by (apply entryId_Some; eauto).
        congruence.
      * now apply (IH1 key s k w).
Qed.

(** A map whose decoded states are all held already changes nothing. *)
Lemma foldl_processEntry_unchanged data : ∀ l c,
  (∀ key s k w, (key, s) ∈ data → parseInt key = Some k →
                rs_state s = Some w → heldState l k = Some (negb w)) →
  foldl processEntry (l, c) data = (l, c).
Proof.
  induction data as [|[key s] data IH]; intros l c H; [reflexivity|].
  cbn [foldl].
  assert (Hp : processEntry (l, c) (key, s) = (l, c)).
  { destruct (entryId (key, s)) as [k|] eqn:He.
    - apply entryId_Some in He as [Hk [w Hw]].
      apply (processEntry_unchanged l c key s k w Hk Hw).
      apply (H key s k w); [left | exact Hk | exact Hw].
    - now apply processEntry_skip. }
  rewrite Hp. apply IH. intros key' s' k w Hin. apply H. now right.
Qed.

End RelayFacts.

Section SortFacts.

Implicit Types (l : list SwitchState) (x : SwitchState) (k : Z).

(** The sort is stable: the first entry of each id stays the first. *)
Lemma heldState_insertById x l k :
  heldState (insertById x l) k
  = if decide (id x = k) then Some (state x) else heldState l k.
Proof.
  induction l as [|y l IH]; cbn [insertById].
  - now rewrite heldState_cons.
  - destruct (Z.leb_spec (id x) (id y)) as [Hle|Hgt].
    + now rewrite heldState_cons.
    + rewrite !heldState_cons, IH.
      destruct (decide (id y = k)), (decide (id x = k)); try reflexivity.
      lia.
Qed.

Lemma heldState_sortById l k : heldState (sortById l) k = heldState l k.
Proof.
  induction l as [|x l IH]; [reflexivity|].
  unfold sortById in *. cbn [foldr].
  now rewrite heldState_insertById, heldState_cons, IH.
Qed.

Lemma insertById_Permutation x l : insertById x l ≡ₚ x :: l.
Proof.
  induction l as [|y l IH]; cbn [insertById]; [reflexivity|].
  destruct (id x <=? id y); [reflexivity|].
  rewrite IH. apply perm_swap.
Qed.

Lemma sortById_Permutation l : sortById l ≡ₚ l.
Proof.
  induction l as [|x l IH]; [reflexivity|].
  unfold sortById in *. cbn [foldr].
  now rewrite insertById_Permutation, IH.
Qed.

Lemma insertById_ascending x l :
  ascendingIds l → id x ∉ id <$> l → ascendingIds (insertById x l).
Proof.
  unfold ascendingIds.
  induction l as [|y l IH]; intros Hs Hx; cbn [insertById].
  - cbn. repeat constructor.
  - cbn [fmap list_fmap] in Hs, Hx.
    apply StronglySorted_inv in Hs as [Hs Hall].
    apply not_elem_of_cons in Hx as [Hne Hx].
    destruct (Z.leb_spec (id x) (id y)) as [Hle|Hgt]; cbn [fmap list_fmap].
    + constructor; [constructor; assumption|].
      constructor; [lia|].
      eapply Forall_impl; [exact Hall|]. cbn. intros; lia.
    + constructor; [now apply IH|].
      change (Forall (Z.lt (id y)) (id <$> insertById x l)).
      rewrite insertById_Permutation. cbn [fmap list_fmap].
      constructor; [lia | exact Hall].
Qed.

Lemma sortById_ascending l : NoDup (id <$> l) → ascendingIds (sortById l).
Proof.
  induction l as [|x l IH]; intros Hnd.
  - constructor.
  - cbn [fmap list_fmap] in Hnd. apply NoDup_cons in Hnd as [Hx Hnd].
    unfold sortById in *. cbn [foldr].
    apply insertById_ascending; [now apply IH|].
    fold (sortById l). now rewrite sortById_Permutation.
Qed.

Lemma ascendingIds_NoDup l : ascendingIds l → NoDup (id <$> l).
Proof.
  unfold ascendingIds. generalize (id <$> l). clear l.
  induction 1 as [|z zs Hs IH Hall]; constructor; [|exact IH].
  intros Hin. rewrite Forall_forall in Hall.
  specialize (Hall z Hin). lia.
Qed.

End SortFacts.

(** C7 (amended): on a remote map whose keys parse to distinct relay
    ids, the ingest is idempotent: processing the same map a second time returns the held list
    itself, with no change flagged. In general a record whose decoded
    state equals the state held for its id leaves the working copy and the
    change flag untouched, and a map made of such records only is a
    no-op. *)
Theorem relay_ingest_idempotent :
  ∀ (prevSwitches : list SwitchState) (data : list (string * RemoteSwitch)),
    NoDup (observedIds data) →
    onSwitchStates (onSwitchStates prevSwitches data).1 data
    = ((onSwitchStates prevSwitches data).1, false)
    ∧ (∀ l c key s k w,
         parseInt key = Some k → rs_state s = Some w →
         heldState l k = Some (WireCodec.toLogical w) →
         processEntry (l, c) (key, s) = (l, c))
    ∧ (∀ l,
         (∀ key s k w, (key, s) ∈ data → parseInt key = Some k →
                       rs_state s = Some w →
                       heldState l k = Some (WireCodec.toLogical w)) →
         onSwitchStates l data = (l, false)).
Proof.
  intros prev data Hnd. split; [|split].
  - unfold onSwitchStates.
    destruct (foldl processEntry (prev, false) data) as [l1 c1] eqn:Hf.
    destruct c1; cbn [fst].
    + destruct (foldl_processEntry_heldState data prev false Hnd) as [H1 _].
      rewrite Hf in H1. cbn [fst] in H1.
      rewrite foldl_processEntry_unchanged; [reflexivity|].
      intros key s k w Hin Hk Hw. rewrite heldState_sortById.
      now apply (H1 key s k w).
    + now rewrite Hf.
  - intros l c key s k w. apply processEntry_unchanged.
  - intros l H. unfold onSwitchStates.
    now rewrite foldl_processEntry_unchanged.
Qed.

Lemma relay_ingest_idempotent_witness :
  NoDup (observedIds remoteSample)
  ∧ onSwitchStates (onSwitchStates fiveOff remoteSample).1 remoteSample
    = ((onSwitchStates fiveOff remoteSample).1, false).
Proof.
  assert (H : NoDup (observedIds remoteSample)).
  { apply (bool_decide_unpack _). vm_compute. exact I. }
  split; [exact H|].
  exact (proj1 (relay_ingest_idempotent fiveOff remoteSample H)).
Defined.

(** C7 as stated fails: the keys "1" and "01" are distinct keys of one
    object and both parse to relay 1; with contradicting states every pass
    flips the relay twice, so processing the same map a second time flags
    a change again. *)
Lemma relay_ingest_colliding_keys :
  let data := [("1", remote false); ("01", remote true)] in
  (onSwitchStates (onSwitchStates fiveOff data).1 data).2 = true.
Proof. reflexivity. Qed.

(** C10: every processing of a remote map keeps the held list strictly
    ascending in id, so with at most one entry per relay id: an id not yet
    held is appended (named after the remote record, or "Switch {id}" when
    the record has no name) and the list is sorted before it is stored.
    The order matters to [updateAllSwitches], which gives the i-th boolean
    of a decision to the i-th entry of the list, whatever its id: only
    when the list holds the relays 1 to 5 in order does relay k receive
    the k-th output. *)
Theorem relay_ingest_keeps_ascending_ids :
  ∀ (prevSwitches : list SwitchState) (data : list (string * RemoteSwitch)),
    ascendingIds prevSwitches →
    ascendingIds (onSwitchStates prevSwitches data).1
    ∧ NoDup (id <$> (onSwitchStates prevSwitches data).1)
    ∧ (∀ l c key s k w,
         parseInt key = Some k → rs_state s = Some w →
         findIndex k l = None →
         processEntry (l, c) (key, s)
         = (l ++ [{| id := k; name := Some (nameOrDefault (rs_name s) k);
                     state := negb w |}], true)
         ∧ nameOrDefault None k = "Switch " +:+ pretty k)
    ∧ (∀ db i,
         updatedSwitches prevSwitches db !! i
         = (λ s, {| id := id s; name := name s; state := notAt db i |})
             <$> prevSwitches !! i)
    ∧ (∀ out,
         id <$> prevSwitches = [1; 2; 3; 4; 5] →
         id <$> updatedSwitches prevSwitches (newSwitchDbStates out)
         = [1; 2; 3; 4; 5]
         ∧ state <$> updatedSwitches prevSwitches (newSwitchDbStates out)
           = negb <$> newSwitchDbStates out).
Proof.
  intros prev data Hasc.
  assert (Hres : ascendingIds (onSwitchStates prev data).1).
  { unfold onSwitchStates.
    destruct (foldl processEntry (prev, false) data) as [l1 c1] eqn:Hf.
    destruct c1; cbn [fst]; [|exact Hasc].
    apply sortById_ascending. change l1 with (l1, true).1. rewrite <- Hf.
    apply foldl_processEntry_ids_NoDup. now apply ascendingIds_NoDup. }
  split; [exact Hres|].
  split; [now apply ascendingIds_NoDup|].
  split.
  { intros l c key s k w Hk Hw Hf. split; [|reflexivity].
    now apply processEntry_new. }
  split.
  { intros db i. unfold updatedSwitches. apply list_lookup_imap. }
  intros out Hids.
  destruct prev as [|s1 [|s2 [|s3 [|s4 [|s5 [|s6 rest]]]]]];
    try discriminate Hids.
  cbn in Hids. injection Hids as H1 H2 H3 H4 H5.
  cbn. unfold notAt. cbn. now rewrite H1, H2, H3, H4, H5.
Qed.

Lemma relay_ingest_keeps_ascending_ids_witness :
  ascendingIds fiveOff
  ∧ ascendingIds (onSwitchStates fiveOff remoteSample).1.
Proof.
  assert (H : ascendingIds fiveOff).
  { unfold ascendingIds. cbn. repeat constructor. }
  split; [exact H|].
  exact (proj1 (relay_ingest_keeps_ascending_ids fiveOff remoteSample H)).
Defined.

(** ** WireCodec *)

Lemma writes_updateAllSwitches act a db :
  writes (updateAllSwitches act a db)
  = writes a ++ (writeCall act <$> updatedSwitches (switches a) db).
Proof. reflexivity. Qed.

Lemma switches_updateAllSwitches act a db :
  switches (updateAllSwitches act a db) = updatedSwitches (switches a) db.
Proof. reflexivity. Qed.

(** C2: decoding and encoding are both the boolean negation and undo each
    other. The ingest of a remote record holds the negation of the stored
    state; applying a decision holds the negation of each output and hands
    exactly that value to [updateSwitchState], whose encoding stores the
    output itself again. *)
Theorem wire_codec_involution :
  ∀ x : bool,
    WireCodec.toLogical x = negb x
    ∧ WireCodec.toWire x = negb x
    ∧ WireCodec.toWire (WireCodec.toLogical x) = x
    ∧ WireCodec.toLogical (WireCodec.toWire x) = x
    ∧ (∀ l c key s k,
         parseInt key = Some k → rs_state s = Some x →
         heldState (processEntry (l, c) (key, s)).1 k
         = Some (WireCodec.toLogical x))
    ∧ (∀ act a db i s,
         switches a !! i = Some s → db !! i = Some x →
         switches (updateAllSwitches act a db) !! i
         = Some {| id := id s; name := name s;
                   state := WireCodec.toLogical x |}
         ∧ w_state <$>
             writes (updateAllSwitches act a db) !! (length (writes a) + i)%nat
           = Some (WireCodec.toLogical x)).
Proof.
  intros x. unfold WireCodec.toLogical, WireCodec.toWire.
  split; [reflexivity|]. split; [reflexivity|].
  split; [apply negb_involutive|]. split; [apply negb_involutive|].
  split.
  - intros l c key s k Hk Hs.
    rewrite (processEntry_heldState l c key s k x k Hk Hs).
    now case_decide.
  - intros act a db i s Hsw Hdb.
    assert (Hi : updatedSwitches (switches a) db !! i
                 = Some {| id := id s; name := name s; state := negb x |}).
    { unfold updatedSwitches. rewrite list_lookup_imap, Hsw. cbn.
      unfold notAt. now rewrite Hdb. }
    split.
    + now rewrite switches_updateAllSwitches.
    + rewrite writes_updateAllSwitches, lookup_app_r by lia.
      replace (length (writes a) + i - length (writes a))%nat with i by lia.
      now rewrite list_lookup_fmap, Hi.
Qed.

Lemma wire_codec_involution_witness :
  heldState (processEntry (fiveOff, false) ("3", remote false)).1 3
  = Some true
  ∧ switches
      (updateAllSwitches noActions (appWith None fiveOff)
         [true; true; false; true; true]) !! 2%nat
    = Some (relay 3 true).
Proof.
  pose proof (wire_codec_involution false) as (_ & _ & _ & _ & Hd & He).
  split.
  - exact (Hd fiveOff false "3" (remote false) 3 eq_refl eq_refl).
  - exact (proj1 (He noActions (appWith None fiveOff)
                    [true; true; false; true; true] 2%nat (relay 3 false)
                    eq_refl eq_refl)).
Defined.

(** ** AllocationPolicy *)

Section PolicyFacts.

Lemma onCount_le_5 out : (onCount out ≤ 5)%nat.
Proof.
  unfold onCount. etransitivity; [apply length_filter|]. reflexivity.
Qed.

Lemma onCount_0 out :
  onCount out = 0%nat ↔ newSwitchDbStates out = [true; true; true; true; true].
Proof.
  destruct out as [[] [] [] [] [] r]; vm_compute; split; congruence.
Qed.

(** A decision with no relay ON, applied to at most five switches, leaves
    every switch OFF. *)
Lemma updatedSwitches_all_off sw :
  (length sw ≤ 5)%nat →
  Forall (λ s, state s = false)
    (updatedSwitches sw [true; true; true; true; true]).
Proof.
  intros Hlen. apply Forall_lookup. intros i s Hi.
  unfold updatedSwitches in Hi. rewrite list_lookup_imap in Hi.
  destruct (sw !! i) as [s0|] eqn:Hs; [|discriminate].
  apply lookup_lt_Some in Hs.
  cbn in Hi. injection Hi as <-. cbn.
  do 5 (destruct i as [|i]; [reflexivity|]). lia.
Qed.

End PolicyFacts.

(** C3 (amended): for battery level 65 the flow returns the answer of the
    model as it is: five booleans, so between 0 and 5 relays ON, with no
    count enforced by the code. The rule of the prompt for 60-70 caps the
    count at three in one revision (every count from 0 to 3 complies) and
    allows all five in the other (every answer complies). *)
Theorem healthy_band_cardinality :
  ∀ (prompt : IntelligentSwitchControlInput →
              option IntelligentSwitchControlOutput)
    (input : IntelligentSwitchControlInput)
    (out : IntelligentSwitchControlOutput),
    in_batteryLevel input = 65 →
    prompt input = Some out →
    intelligentSwitchControl prompt input = Some out
    ∧ length (newSwitchDbStates out) = 5%nat
    ∧ (onCount out ≤ 5)%nat
    ∧ (PromptRules.compliesBanded (in_batteryLevel input) out = true
       ↔ (onCount out ≤ 3)%nat)
    ∧ PromptRules.complies (in_batteryLevel input) out = true.
Proof.
  intros prompt input out Hb Hp. rewrite Hb.
  split; [exact Hp|]. split; [reflexivity|].
  split; [apply onCount_le_5|].
  split; [|reflexivity].
  unfold PromptRules.compliesBanded. cbn. apply Nat.leb_le.
Qed.

Lemma healthy_band_cardinality_witness :
  in_batteryLevel (inputAt 65) = 65
  ∧ intelligentSwitchControl (λ _, Some twoOn) (inputAt 65) = Some twoOn.
Proof.
  split; [reflexivity|].
  exact (proj1 (healthy_band_cardinality (λ _, Some twoOn) (inputAt 65)
                  twoOn eq_refl eq_refl)).
Defined.

(** C3 as stated fails: at battery level 65 an answer with two relays ON
    satisfies the rules of both revisions of the prompt and is returned
    as the decision; an answer with all five ON satisfies the rules of
    intelligent-switch-control.ts and is returned as well. *)
Lemma healthy_band_not_exactly_three :
  intelligentSwitchControl (λ _, Some twoOn) (inputAt 65) = Some twoOn
  ∧ PromptRules.compliesBanded 65 twoOn = true
  ∧ PromptRules.complies 65 twoOn = true
  ∧ onCount twoOn = 2%nat
  ∧ intelligentSwitchControl (λ _, Some allOn) (inputAt 65) = Some allOn
  ∧ PromptRules.complies 65 allOn = true
  ∧ onCount allOn = 5%nat.
Proof. repeat split. Qed.

(** C4 (amended): for a battery level below 10 the first rule of the
    prompt, in both revisions and before any other rule, is met exactly by
    the answer that outputs [true] (OFF) for all five switches; applied to
    the (at most five) held switches such an answer leaves every relay
    OFF, whatever the other inputs. The flow itself returns the answer of
    the model unchecked, and its reasoning text is passed on as it is. *)
Theorem critical_band_override :
  ∀ (prompt : IntelligentSwitchControlInput →
              option IntelligentSwitchControlOutput)
    (input : IntelligentSwitchControlInput)
    (out : IntelligentSwitchControlOutput),
    in_batteryLevel input < 10 →
    prompt input = Some out →
    intelligentSwitchControl prompt input = Some out
    ∧ (PromptRules.complies (in_batteryLevel input) out = true
       ↔ newSwitchDbStates out = [true; true; true; true; true])
    ∧ (PromptRules.compliesBanded (in_batteryLevel input) out = true
       ↔ newSwitchDbStates out = [true; true; true; true; true])
    ∧ (PromptRules.complies (in_batteryLevel input) out = true →
       ∀ sw, (length sw ≤ 5)%nat →
             Forall (λ s, state s = false)
               (updatedSwitches sw (newSwitchDbStates out))).
Proof.
  intros prompt input out Hb Hp.
  assert (Hlt : (in_batteryLevel input <? 10) = true) by now apply Z.ltb_lt.
  assert (Hc : PromptRules.complies (in_batteryLevel input) out = true
               ↔ newSwitchDbStates out = [true; true; true; true; true]).
  { unfold PromptRules.complies. rewrite Hlt.
    rewrite Nat.eqb_eq. apply onCount_0. }
  split; [exact Hp|]. split; [exact Hc|]. split.
  - unfold PromptRules.compliesBanded. rewrite Hlt.
    rewrite Nat.eqb_eq. apply onCount_0.
  - intros Hok sw Hlen. apply Hc in Hok. rewrite Hok.
    now apply updatedSwitches_all_off.
Qed.

Lemma critical_band_override_witness :
  in_batteryLevel (inputAt 5) < 10
  ∧ Forall (λ s, state s = false)
      (updatedSwitches fiveOff (newSwitchDbStates allOff)).
Proof.
  assert (H : in_batteryLevel (inputAt 5) < 10) by reflexivity.
  split; [exact H|].
  destruct (critical_band_override (λ _, Some allOff) (inputAt 5) allOff
              H eq_refl) as (_ & _ & _ & Hoff).
  apply Hoff; [reflexivity|]. cbn. lia.
Defined.

(** C4 as stated fails: nothing in the flow or in the dashboard checks the
    answer against the rule, so at battery level 5 an answer that turns
    every relay ON is returned and applied. *)
Lemma critical_band_not_enforced :
  in_batteryLevel (inputAt 5) = 5
  ∧ intelligentSwitchControl (λ _, Some allOn) (inputAt 5) = Some allOn
  ∧ state <$> updatedSwitches fiveOff (newSwitchDbStates allOn)
    = [true; true; true; true; true].
Proof. repeat split. Qed.

(** ** ReconciliationWriter *)

Section WriterFacts.

Lemma setStateOf_twice k b b' (l : list SwitchState) :
  setStateOf k b' (setStateOf k b l) = setStateOf k b' l.
Proof.
  unfold setStateOf. rewrite <- list_fmap_compose.
  apply list_fmap_ext. intros i s _. cbn.
  destruct (decide (id s = k)) as [Hk|Hk]; cbn.
  - now rewrite decide_True by exact Hk.
  - now rewrite decide_False by exact Hk.
Qed.

Lemma length_updatedSwitches sw db :
  length (updatedSwitches sw db) = length sw.
Proof. unfold updatedSwitches. apply length_imap. Qed.

End WriterFacts.

(** C6 (amended): applying a decision updates every held switch
    optimistically and issues one write per switch without looking at any
    outcome: the held list afterwards is the optimistic one whichever
    writes fail, and no error is surfaced. Only the manual toggle tracks
    its write: when it fails the toggled relay, and no other, is set to the
    negation of the requested state and an "Update Failed" notification is
    raised; when it succeeds the requested state stays. *)
Theorem decision_writes_are_not_tracked :
  ∀ (act act' : Actions) (a : App) (db : list bool),
    switches (updateAllSwitches act a db) = updatedSwitches (switches a) db
    ∧ switches (updateAllSwitches act a db)
      = switches (updateAllSwitches act' a db)
    ∧ toasts (updateAllSwitches act a db) = toasts a
    ∧ length (writes (updateAllSwitches act a db))
      = (length (writes a) + length (switches a))%nat
    ∧ (∀ k checked i target,
         findIndex k (switches a) = Some (i, target) →
         let result := updateSwitchState act k (name target) checked in
         let a' := handleSwitchChange act a k checked in
         writes a'
         = writes a ++ [mkWriteCall k (name target) checked (success result)]
         ∧ (success result = false →
            switches a' = setStateOf k (negb checked) (switches a)
            ∧ toasts a' = toasts a ++ [mkToast true "Update Failed"])
         ∧ (success result = true →
            switches a' = setStateOf k checked (switches a)
            ∧ toasts a' = toasts a)).
Proof.
  intros act act' a db.
  split; [reflexivity|]. split; [reflexivity|]. split; [reflexivity|].
  split.
  { rewrite writes_updateAllSwitches, length_app, length_fmap.
    now rewrite length_updatedSwitches. }
  intros k checked i target Hf result a'.
  subst a'. unfold handleSwitchChange. rewrite Hf. fold result.
  destruct (success result) eqn:Hs.
  - split; [reflexivity|]. split; [discriminate|]. intros _. split; reflexivity.
  - split; [reflexivity|]. split; [|discriminate]. intros _.
    split; [|reflexivity]. cbn. apply setStateOf_twice.
Qed.

Lemma decision_writes_are_not_tracked_witness :
  findIndex 3 fiveOff = Some (2%nat, relay 3 false)
  ∧ switches (handleSwitchChange (failingFor 3) (appWith None fiveOff) 3 true)
    = setStateOf 3 false fiveOff.
Proof.
  split; [reflexivity|].
  destruct (decision_writes_are_not_tracked (failingFor 3) noActions
              (appWith None fiveOff) []) as (_ & _ & _ & _ & H).
  exact (proj1 (proj1 (proj2 (H 3 true 2%nat (relay 3 false) eq_refl))
                  eq_refl)).
Defined.

(** C6 as stated fails: the five relays are OFF, the decision turns all
    five ON and the write for relay 3 fails; afterwards relay 3 is held ON
    like the other four, its failed write is in the log and no error was
    raised. *)
Lemma decision_failed_write_not_rolled_back :
  let before := appWith None fiveOff in
  let after :=
    updateAllSwitches (failingFor 3) before (newSwitchDbStates allOn) in
  heldState (switches before) 3 = Some false
  ∧ w_success <$> writes after = [true; true; false; true; true]
  ∧ heldState (switches after) 3 = Some true
  ∧ state <$> switches after = [true; true; true; true; true]
  ∧ toasts after = [].
Proof. repeat split. Qed.

(** ** Optimisation without a forecast *)

(** When no prediction is held and the fetch that [handleOptimization]
    attempts first fails, the policy action is not called, no write is
    issued and the held switches are unchanged; the request ends with the
    "Cannot Optimize" notification instead of a failed policy call. *)
Theorem no_forecast_no_policy_call :
  ∀ (act : Actions) (a : App) (dataForOptimization : EnergyData)
    (isAutomatic : bool),
    prediction a = None →
    success (runEnergyPrediction act) = false
    ∨ data (runEnergyPrediction act) = None →
    let a' := handleOptimization act a dataForOptimization isAutomatic in
    predictionCalls a' = S (predictionCalls a)
    ∧ policyCalls a' = policyCalls a
    ∧ writes a' = writes a
    ∧ switches a' = switches a
    ∧ prediction a' = None
    ∧ isOptimizing a' = false
    ∧ toasts a'
      = toasts a ++ [mkToast true "Prediction Failed";
                     mkToast true "Cannot Optimize"].
Proof.
  intros act a d isAutomatic Hp Hfail a'. subst a'.
  unfold handleOptimization. rewrite Hp.
  assert (Hh : handlePrediction act a
               = setIsPredictionLoading false
                   (toast (mkToast true "Prediction Failed")
                      (logPredictionCall
                         (setAiReasoning ""
                            (setIsPredictionLoading true a))))).
  { unfold handlePrediction.
    destruct Hfail as [Hs|Hd]; [now rewrite Hs|].
    rewrite Hd. now destruct (success (runEnergyPrediction act)). }
  rewrite Hh. cbn. rewrite Hp. cbn.
  repeat split; [exact Hp|]. now rewrite <- app_assoc.
Qed.

Lemma no_forecast_no_policy_call_witness :
  prediction (appWith None fiveOff) = None
  ∧ switches
      (handleOptimization noActions (appWith None fiveOff)
         (defaultsWithLevel 35) true)
    = fiveOff.
Proof.
  split; [reflexivity|].
  destruct (no_forecast_no_policy_call noActions (appWith None fiveOff)
              (defaultsWithLevel 35) true eq_refl (or_introl eq_refl))
    as (_ & _ & _ & H & _).
  exact H.
Defined.

(** The policy is called only with a forecast in hand: when one is held,
    or is fetched by the first step, exactly one call is made, with that
    forecast. *)
Lemma forecast_then_policy_call act a d isAutomatic p :
  prediction a = Some p ∨
  (prediction a = None ∧ success (runEnergyPrediction act) = true
   ∧ data (runEnergyPrediction act) = Some p) →
  policyCalls (handleOptimization act a d isAutomatic)
  = policyCalls a ++ [policyInput a d p].
Proof.
  intros [Hp|(Hn & Hs & Hd)]; unfold handleOptimization.
  - rewrite Hp. cbn beta iota zeta. rewrite Hp.
    destruct (runIntelligentSwitchControl act (policyInput a d p))
      as [[] [out|] e]; reflexivity.
  - rewrite Hn. unfold handlePrediction. rewrite Hs, Hd. cbn.
    match goal with
    | |- context [runIntelligentSwitchControl act ?i] =>
        destruct (runIntelligentSwitchControl act i) as [[] [out|] e]
    end; reflexivity.
Qed.

(** A request dropped for want of a forecast is not resumed when a
    forecast arrives later: a successful [handlePrediction] afterwards
    calls no policy and issues no write. *)
Lemma dropped_request_is_not_resumed act act' a d isAutomatic :
  let a1 := handleOptimization act a d isAutomatic in
  policyCalls (handlePrediction act' a1) = policyCalls a1
  ∧ writes (handlePrediction act' a1) = writes a1
  ∧ switches (handlePrediction act' a1) = switches a1.
Proof.
  intros a1. unfold handlePrediction.
  destruct (success (runEnergyPrediction act')),
    (data (runEnergyPrediction act')); repeat split.
Qed.

(** ** Device control surface *)

Section FirmwareFacts.

Import Firmware.

(** The five configured relays, one goal each. *)
Ltac each_relay switchId H :=
  let Hc := fresh "Hc" in
  assert (Hc : switchId = 1 ∨ switchId = 2 ∨ switchId = 3
               ∨ switchId = 4 ∨ switchId = 5) by lia;
  clear H; destruct Hc as [-> | [-> | [-> | [-> | ->]]]].

Lemma NC_writeSwitch_lookup switchId switchState (gpio : gmap Z Level) :
  1 ≤ switchId ≤ 5 →
  NC.writeSwitch switchId switchState gpio !! NC.getPinForSwitch switchId
  = Some (NC.levelFor switchState).
Proof.
  intros H. each_relay switchId H; apply lookup_insert_eq.
Qed.

Lemma Example_writeSwitch_lookup switchId switchState
    (gpio : gmap Z Level) :
  1 ≤ switchId ≤ 5 →
  Example.writeSwitch switchId switchState gpio
    !! Example.getPinForSwitch switchId
  = Some (Example.levelFor switchState).
Proof.
  intros H. each_relay switchId H; apply lookup_insert_eq.
Qed.

End FirmwareFacts.

(** C9 (what the code does): for every relay id from 1 to 5 and every
    stored state, both handlers of a sketch write the same level, but the
    two sketches are opposite. The NC firmware writes LOW for a stored
    [true] and HIGH for a stored [false]; since the dashboard stores
    [false] for a relay that is ON (its logical state is the negation of
    the stored one), a relay that is logically ON is driven HIGH, the
    level the firmware itself documents as OFF, and a relay that is
    logically OFF is driven LOW. The example sketch writes LOW exactly
    when the logical state is ON. *)
Theorem firmware_pin_polarity :
  ∀ (switchId : Z) (stored : bool) (gpio : gmap Z Firmware.Level),
    1 ≤ switchId ≤ 5 →
    let logicalOn := WireCodec.toLogical stored in
    Firmware.NC.streamCallback
      (Firmware.StateUpdate switchId "boolean" stored) gpio
      !! Firmware.NC.getPinForSwitch switchId
    = Some (if logicalOn then Firmware.HIGH else Firmware.LOW)
    ∧ Firmware.NC.streamCallback
        (Firmware.Json true [(switchId, Some stored)]) gpio
        !! Firmware.NC.getPinForSwitch switchId
      = Some (if logicalOn then Firmware.HIGH else Firmware.LOW)
    ∧ Firmware.Example.streamCallback
        (Firmware.StateUpdate switchId "boolean" stored) gpio
        !! Firmware.Example.getPinForSwitch switchId
      = Some (if logicalOn then Firmware.LOW else Firmware.HIGH)
    ∧ Firmware.Example.streamCallback
        (Firmware.Json true [(switchId, Some stored)]) gpio
        !! Firmware.Example.getPinForSwitch switchId
      = Some (if logicalOn then Firmware.LOW else Firmware.HIGH).
Proof.
  intros switchId stored gpio H logicalOn. subst logicalOn.
  unfold WireCodec.toLogical.
  cbn [Firmware.NC.streamCallback Firmware.Example.streamCallback foldl
       fst snd].
  change (String.eqb "boolean" "boolean" && stored) with stored.
  rewrite !NC_writeSwitch_lookup, !Example_writeSwitch_lookup by exact H.
  destruct stored; repeat split.
Qed.

Lemma firmware_pin_polarity_witness :
  1 ≤ 1 ≤ 5
  ∧ Firmware.NC.streamCallback (Firmware.StateUpdate 1 "boolean" false) ∅
      !! 13
    = Some Firmware.HIGH.
Proof.
  assert (H : 1 ≤ 1 ≤ 5) by lia.
  split; [exact H|].
  exact (proj1 (firmware_pin_polarity 1 false ∅ H)).
Defined.

(** * Further properties of the code *)

(** ** Relay ingest: what one pass does to the held list *)

Section IngestFacts.

Implicit Types (l : list SwitchState) (k : Z) (c : bool).

Lemma validEntry_false e : validEntry e = false ↔ entryId e = None.
Proof. unfold validEntry. destruct (entryId e); split; congruence. Qed.

(** A pass that ends with the flag down has changed nothing on the way,
    and every record it read was already held. *)
Lemma processEntry_false_inv l c key s l1 :
  processEntry (l, c) (key, s) = (l1, false) →
  l1 = l ∧ c = false
  ∧ ∀ k w, parseInt key = Some k → rs_state s = Some w →
           heldState l k = Some (negb w).
Proof.
  unfold processEntry.
  destruct (parseInt key) as [k0|] eqn:Hk;
    [destruct (rs_state s) as [w0|] eqn:Hw|].
  - destruct (findIndex k0 l) as [[i x]|] eqn:Hf; [|discriminate].
    destruct (Bool.eqb (state x) (negb w0)) eqn:Hb; [|discriminate].
    intros [= <- <-]. split; [reflexivity|]. split; [reflexivity|].
    intros k w [= <-] [= <-].
    rewrite (heldState_findIndex _ _ _ _ Hf).
    now apply Bool.eqb_prop in Hb as ->.
  - intros [= <- <-]. repeat split. intros; discriminate.
  - intros [= <- <-]. repeat split. intros; discriminate.
Qed.

Lemma foldl_processEntry_false_inv data : ∀ l c l1,
  foldl processEntry (l, c) data = (l1, false) →
  l1 = l ∧ c = false
  ∧ ∀ key s k w, (key, s) ∈ data → parseInt key = Some k →
                 rs_state s = Some w → heldState l k = Some (negb w).
Proof.
  induction data as [|[key0 s0] data IH]; intros l c l1 H.
  - cbn in H. injection H as <- <-. repeat split.
    intros ? ? ? ? Hin. inversion Hin.
  - cbn [foldl] in H.
    destruct (processEntry (l, c) (key0, s0)) as [l2 c2] eqn:Hp.
    apply IH in H as (-> & -> & Hrest).
    apply processEntry_false_inv in Hp as (-> & -> & Hhere).
    split; [reflexivity|]. split; [reflexivity|].
    intros key s k w Hin Hk Hw.
    apply elem_of_cons in Hin as [[= -> ->]|Hin].
    + now apply Hhere.
    + now apply (Hrest key s k w).
Qed.

(** The held state of every id is the same in the stored list as in the
    working copy at the end of the loop. *)
Lemma heldState_onSwitchStates prev data k :
  heldState (onSwitchStates prev data).1 k
  = heldState (foldl processEntry (prev, false) data).1 k.
Proof.
  unfold onSwitchStates.
  destruct (foldl processEntry (prev, false) data) as [l1 c1] eqn:Hf.
  destruct c1; cbn [fst].
  - apply heldState_sortById.
  - now apply foldl_processEntry_false_inv in Hf as (-> & _).
Qed.

Lemma foldl_processEntry_untouched data : ∀ l c k,
  k ∉ observedIds data →
  heldState (foldl processEntry (l, c) data).1 k = heldState l k.
Proof.
  induction data as [|[key0 s0] data IH]; intros l c k Hk; [reflexivity|].
  cbn [foldl]. unfold observedIds in Hk. cbn [omap list_omap] in Hk.
  destruct (entryId (key0, s0)) as [k0|] eqn:He.
  - apply not_elem_of_cons in Hk as [Hne Hk].
    pose proof He as He'. apply entryId_Some in He' as [Hk0 [w0 Hw0]].
    destruct (processEntry (l, c) (key0, s0)) as [l1 c1] eqn:Hp.
    rewrite (IH l1 c1 k Hk). change l1 with (l1, c1).1. rewrite <- Hp.
    rewrite (processEntry_heldState l c key0 s0 k0 w0 k Hk0 Hw0).
    case_decide; congruence.
  - rewrite processEntry_skip by exact He. now apply IH.
Qed.

Lemma elem_of_ids_iff_held l k : k ∈ id <$> l ↔ is_Some (heldState l k).
Proof.
  induction l as [|x l IH]; cbn [fmap list_fmap].
  - rewrite heldState_nil. split; [intros H; inversion H | intros [? ?]; discriminate].
  - rewrite heldState_cons, elem_of_cons, IH.
    destruct (decide (id x = k)) as [<-|Hne]; split.
    + eauto.
    + now left.
    + intros [Heq|H]; [congruence | exact H].
    + now right.
Qed.

Lemma elem_of_ids_processEntry l c e k :
  k ∈ id <$> (processEntry (l, c) e).1 ↔ k ∈ id <$> l ∨ entryId e = Some k.
Proof.
  destruct e as [key s].
  destruct (entryId (key, s)) as [k0|] eqn:He.
  - pose proof He as He'. apply entryId_Some in He' as [Hk0 [w0 Hw0]].
    rewrite !elem_of_ids_iff_held.
    rewrite (processEntry_heldState l c key s k0 w0 k Hk0 Hw0).
    destruct (decide (k0 = k)) as [->|Hne]; split.
    + now right.
    + eauto.
    + now left.
    + intros [H|[= H]]; [exact H | congruence].
  - rewrite processEntry_skip by exact He.
    split; [now left | intros [H|H]; [exact H | discriminate]].
Qed.

Lemma elem_of_ids_foldl data : ∀ l c k,
  k ∈ id <$> (foldl processEntry (l, c) data).1
  ↔ k ∈ id <$> l ∨ k ∈ observedIds data.
Proof.
  induction data as [|e data IH]; intros l c k.
  - cbn. split; [now left | intros [H|H]; [exact H | inversion H]].
  - cbn [foldl]. destruct (processEntry (l, c) e) as [l1 c1] eqn:Hp.
    rewrite IH. change l1 with (l1, c1).1. rewrite <- Hp.
    rewrite elem_of_ids_processEntry.
    unfold observedIds. cbn [omap list_omap].
    destruct (entryId e) as [k0|]; [rewrite elem_of_cons|]; split.
    + intros [[H|[= ->]]|H]; [now left | right; now left | right; now right].
    + intros [H|[->|H]];
        [left; now left | left; now right | now right].
    + intros [[H|H]|H]; [now left | discriminate | now right].
    + intros [H|H]; [left; now left | now right].
Qed.

End IngestFacts.

(** X1: a relay that the remote map does not mention keeps the state held
    for it, whatever else the map contains. *)
Theorem ingest_leaves_other_relays (prevSwitches : list SwitchState)
    (data : list (string * RemoteSwitch)) (k : Z) :
  k ∉ observedIds data →
  heldState (onSwitchStates prevSwitches data).1 k = heldState prevSwitches k.
Proof.
  intros Hk. rewrite heldState_onSwitchStates.
  now apply foldl_processEntry_untouched.
Qed.

Lemma ingest_leaves_other_relays_witness :
  (4 ∉ observedIds remoteSample)
  ∧ heldState (onSwitchStates fiveOff remoteSample).1 4 = Some false.
Proof.
  assert (H : 4 ∉ observedIds remoteSample).
  { apply (bool_decide_unpack _). vm_compute. exact I. }
  split; [exact H|].
  exact (ingest_leaves_other_relays fiveOff remoteSample 4 H).
Defined.

(** X2: after a pass over a map that names each relay once, the state held
    for every relay the map mentions is the negation of the stored state,
    whether the relay was held before or not. *)
Theorem ingest_converges_to_remote (prevSwitches : list SwitchState)
    (data : list (string * RemoteSwitch)) (key : string)
    (s : RemoteSwitch) (k : Z) (w : bool) :
  NoDup (observedIds data) →
  (key, s) ∈ data → parseInt key = Some k → rs_state s = Some w →
  heldState (onSwitchStates prevSwitches data).1 k = Some (negb w).
Proof.
  intros Hnd Hin Hk Hw. rewrite heldState_onSwitchStates.
  destruct (foldl_processEntry_heldState data prevSwitches false Hnd)
    as [H _].
  now apply (H key s k w).
Qed.

Lemma ingest_converges_to_remote_witness :
  NoDup (observedIds remoteSample)
  ∧ heldState (onSwitchStates fiveOff remoteSample).1 7 = Some true.
Proof.
  assert (H : NoDup (observedIds remoteSample)).
  { apply (bool_decide_unpack _). vm_compute. exact I. }
  split; [exact H|].
  apply (ingest_converges_to_remote fiveOff remoteSample "7" (remote false)
           7 false H); [|reflexivity|reflexivity].
  unfold remoteSample. do 3 apply list_elem_of_further.
  apply list_elem_of_here.
Defined.

(** X3: the pass stores a new list exactly when some record it reads
    disagrees with what is held: the flag stays down if and only if every
    record with a numeric key and a state finds its relay held with the
    negated state. *)
Theorem ingest_flag_iff_disagreement (prevSwitches : list SwitchState)
    (data : list (string * RemoteSwitch)) :
  (onSwitchStates prevSwitches data).2 = false
  ↔ ∀ key s k w, (key, s) ∈ data → parseInt key = Some k →
                 rs_state s = Some w →
                 heldState prevSwitches k = Some (negb w).
Proof.
  unfold onSwitchStates. split.
  - destruct (foldl processEntry (prevSwitches, false) data)
      as [l1 c1] eqn:Hf.
    destruct c1; [discriminate|]. intros _.
    now apply foldl_processEntry_false_inv in Hf as (_ & _ & H).
  - intros H. now rewrite foldl_processEntry_unchanged.
Qed.

(** X4: a pass never drops a relay and adds exactly the ids it observes:
    the ids held afterwards are those held before together with those of
    the records read. *)
Theorem ingest_held_ids (prevSwitches : list SwitchState)
    (data : list (string * RemoteSwitch)) (k : Z) :
  k ∈ id <$> (onSwitchStates prevSwitches data).1
  ↔ k ∈ id <$> prevSwitches ∨ k ∈ observedIds data.
Proof.
  rewrite elem_of_ids_iff_held, heldState_onSwitchStates.
  rewrite <- elem_of_ids_iff_held. apply elem_of_ids_foldl.
Qed.

(** X5: records whose key is not a number or that have no [state] are
    ignored: the pass gives the same result as on the map without them. *)
Theorem ingest_ignores_malformed (prevSwitches : list SwitchState)
    (data : list (string * RemoteSwitch)) :
  onSwitchStates prevSwitches data
  = onSwitchStates prevSwitches (filter (λ e, validEntry e = true) data).
Proof.
  unfold onSwitchStates.
  assert (H : ∀ acc, foldl processEntry acc data
                = foldl processEntry acc
                    (filter (λ e, validEntry e = true) data)).
  { induction data as [|e data IH]; intros [l c]; [reflexivity|].
    rewrite filter_cons. destruct (validEntry e) eqn:Hv.
    - rewrite decide_True by reflexivity. cbn [foldl]. apply IH.
    - rewrite decide_False by discriminate. cbn [foldl].
      apply validEntry_false in Hv. rewrite processEntry_skip by exact Hv.
      apply IH. }
  now rewrite H.
Qed.

(** ** Keys: [parseInt] reads back the decimal form of an id *)

Section ParseIntFacts.

Lemma digitValue_pretty_N_char (r : N) :
  (r < 10)%N → digitValue (pretty_N_char r) = Some (Z.of_N r).
Proof.
  intros H.
  assert (Hc : (r = 0 ∨ r = 1 ∨ r = 2 ∨ r = 3 ∨ r = 4 ∨ r = 5 ∨ r = 6
                ∨ r = 7 ∨ r = 8 ∨ r = 9)%N) by lia.
  destruct Hc as [->|[->|[->|[->|[->|[->|[->|[->|[->| ->]]]]]]]]];
    reflexivity.
Qed.

(** A decimal digit is neither white space nor a sign. *)
Lemma digit_is_plain (c : ascii) (d : Z) :
  digitValue c = Some d →
  isWhiteSpace c = false ∧ Ascii.eqb c "-" = false
  ∧ Ascii.eqb c "+" = false.
Proof.
  destruct c as [[] [] [] [] [] [] [] []]; vm_compute;
    intros H; try discriminate H; auto.
Qed.

(** Printing [x] in front of [s] and reading the digits back accumulates
    [x]; the printed text starts with a digit. *)
Lemma digitsPrefix_pretty_N_go (x : N) :
  (0 < x)%N →
  ∃ m : Z,
    (∀ s acc, digitsPrefix (pretty_N_go x s) acc
              = digitsPrefix s (Some ((acc ?? 0) * m + Z.of_N x)))
    ∧ (∀ s, ∃ c rest d, pretty_N_go x s = String c rest
                        ∧ digitValue c = Some d).
Proof.
  induction (N.lt_wf_0 x) as [x _ IH]. intros Hx.
  assert (Hr : (x `mod` 10 < 10)%N) by (apply N.mod_lt; lia).
  pose proof (digitValue_pretty_N_char _ Hr) as Hd.
  pose proof (N.eq_0_gt_0_cases (x `div` 10)) as Hq.
  assert (Hdm : (x = 10 * (x `div` 10) + x `mod` 10)%N)
    by (apply N.div_mod; discriminate).
  destruct Hq as [Hq|Hq].
  - exists 10. split.
    + intros s acc. rewrite pretty_N_go_step by exact Hx.
      rewrite Hq, pretty_N_go_0. cbn [digitsPrefix]. rewrite Hd.
      f_equal. f_equal. lia.
    + intros s. rewrite pretty_N_go_step by exact Hx.
      rewrite Hq, pretty_N_go_0. eauto.
  - destruct (IH (x `div` 10)%N) as (m & Hgo & Hhd);
      [apply N.div_lt; lia | exact Hq |].
    exists (10 * m). split.
    + intros s acc. rewrite pretty_N_go_step by exact Hx.
      rewrite Hgo. cbn [digitsPrefix]. rewrite Hd. cbn [nullish].
      f_equal. f_equal. lia.
    + intros s. rewrite pretty_N_go_step by exact Hx. apply Hhd.
Qed.

Lemma digitsPrefix_pretty_pos (p : positive) :
  digitsPrefix (pretty_N_go (N.pos p) "") None = Some (Z.pos p)
  ∧ ∃ c rest d, pretty_N_go (N.pos p) "" = String c rest
                ∧ digitValue c = Some d.
Proof.
  destruct (digitsPrefix_pretty_N_go (N.pos p)) as (m & Hgo & Hhd);
    [reflexivity|].
  split; [|apply Hhd].
  rewrite Hgo. cbn [digitsPrefix nullish]. f_equal; lia.
Qed.

End ParseIntFacts.

Lemma parseInt_of_pretty (k : Z) : parseInt (pretty k) = Some k.
Proof.
  destruct k as [|p|p].
  - reflexivity.
  - destruct (digitsPrefix_pretty_pos p) as (Hv & c & rest & d & Hs & Hd).
    change (pretty (Z.pos p)) with (pretty_N_go (N.pos p) "").
    destruct (digit_is_plain c d Hd) as (Hw & Hm & Hp).
    unfold parseInt. rewrite Hs. cbn [trimStart]. rewrite Hw, Hm, Hp.
    now rewrite <- Hs.
  - destruct (digitsPrefix_pretty_pos p) as (Hv & _).
    change (pretty (Z.neg p))
      with (String "-" (pretty_N_go (N.pos p) "")).
    unfold parseInt. cbn [trimStart].
    change (isWhiteSpace "-") with false. cbn iota.
    change (Ascii.eqb "-" "-") with true. cbn iota.
    now rewrite Hv.
Qed.

(** X6: [parseInt] inverts the decimal form of an integer, so a record
    stored under the decimal key of relay [k] is applied to relay [k]:
    after the pass the state held for [k] is the negation of the stored
    one, for every integer [k] of magnitude up to 2^53 (the integers a
    JavaScript number holds without rounding) and every held list. *)
Theorem decimal_key_addresses_relay (k : Z) :
  Z.abs k ≤ 2 ^ 53 →
  parseInt (pretty k) = Some k
  ∧ ∀ (prevSwitches : list SwitchState) (s : RemoteSwitch) (w : bool),
      rs_state s = Some w →
      heldState (onSwitchStates prevSwitches [(pretty k, s)]).1 k
      = Some (negb w).
Proof.
  intros _. split; [apply parseInt_of_pretty|].
  intros prev s w Hw. rewrite heldState_onSwitchStates. cbn [foldl].
  rewrite (processEntry_heldState prev false (pretty k) s k w k
             (parseInt_of_pretty k) Hw).
  now rewrite decide_True.
Qed.

Lemma decimal_key_addresses_relay_witness :
  Z.abs 12 ≤ 2 ^ 53
  ∧ heldState (onSwitchStates fiveOff [(pretty 12, remote false)]).1 12
    = Some true.
Proof.
  assert (H : Z.abs 12 ≤ 2 ^ 53) by (cbn; lia).
  split; [exact H|].
  exact (proj2 (decimal_key_addresses_relay 12 H) fiveOff (remote false)
           false eq_refl).
Defined.

(** ** The relay ingest of the earlier revision *)

Lemma processEntryV1_ids l c e :
  id <$> (processEntryV1 (l, c) e).1 = id <$> l.
Proof.
  destruct e as [key s]. unfold processEntryV1.
  destruct (parseInt key) as [k|]; [|reflexivity].
  destruct (findIndex k l) as [[i x]|] eqn:Hf; [|reflexivity].
  match goal with |- context [Bool.eqb ?a ?b] => destruct (Bool.eqb a b) end;
    cbn [fst]; [reflexivity|].
  apply (ids_insert l k i x); [exact Hf|]. cbn. now apply findIndex_id in Hf.
Qed.

(** X7: the ingest of the earlier revision only rewrites entries in place:
    the ids held, their order and their number are the same after every
    pass, so a record for a relay that is not held is dropped. *)
Theorem ingestV1_keeps_ids (prevSwitches : list SwitchState)
    (data : list (string * RemoteSwitch)) :
  id <$> (onSwitchStatesV1 prevSwitches data).1 = id <$> prevSwitches
  ∧ length (onSwitchStatesV1 prevSwitches data).1 = length prevSwitches.
Proof.
  assert (H : id <$> (onSwitchStatesV1 prevSwitches data).1
              = id <$> prevSwitches).
  { unfold onSwitchStatesV1.
    assert (Hf : ∀ acc, id <$> (foldl processEntryV1 acc data).1
                        = id <$> acc.1).
    { induction data as [|e data IH]; intros [l c]; [reflexivity|].
      cbn [foldl]. rewrite IH.
      destruct (processEntryV1 (l, c) e) as [l1 c1] eqn:Hp.
      change l1 with (l1, c1).1. rewrite <- Hp. apply processEntryV1_ids. }
    specialize (Hf (prevSwitches, false)).
    destruct (foldl processEntryV1 (prevSwitches, false) data) as [l1 []];
      [exact Hf | reflexivity]. }
  split; [exact H|].
  apply (f_equal length) in H. now rewrite !length_fmap in H.
Qed.

(** ** Applying a decision *)

Lemma ids_updatedSwitches sw db : id <$> updatedSwitches sw db = id <$> sw.
Proof.
  apply list_eq. intros i. unfold updatedSwitches.
  rewrite !list_lookup_fmap, list_lookup_imap.
  now destruct (sw !! i).
Qed.

Lemma names_updatedSwitches sw db :
  name <$> updatedSwitches sw db = name <$> sw.
Proof.
  apply list_eq. intros i. unfold updatedSwitches.
  rewrite !list_lookup_fmap, list_lookup_imap.
  now destruct (sw !! i).
Qed.

Lemma heldState_NoDup (l : list SwitchState) (x : SwitchState) :
  NoDup (id <$> l) → x ∈ l → heldState l (id x) = Some (state x).
Proof.
  induction l as [|y l IH]; intros Hnd Hin; [inversion Hin|].
  cbn [fmap list_fmap] in Hnd. apply NoDup_cons in Hnd as [Hy Hnd].
  rewrite heldState_cons.
  apply elem_of_cons in Hin as [->|Hin].
  - now rewrite decide_True.
  - rewrite decide_False; [now apply IH|].
    intros Heq. apply Hy. rewrite Heq. now apply list_elem_of_fmap_2.
Qed.

(** X8: a decision stores the array its closure captured, with new
    states. The list held afterwards has the ids, names, order and number
    of the captured array, whatever was held when the answer arrived, and
    one write per captured relay is issued, in order; so a relay that the
    ingest appended after the capture is no longer held. With nothing
    changed in between, this is [updateAllSwitches] on the held list. *)
Theorem decision_stores_the_captured_relays (captured : list SwitchState)
    (act : Actions) (a : App) (db : list bool) :
  let a' := updateAllSwitchesWith captured act a db in
  id <$> switches a' = id <$> captured
  ∧ name <$> switches a' = name <$> captured
  ∧ length (switches a') = length captured
  ∧ w_id <$> drop (length (writes a)) (writes a') = id <$> captured
  ∧ (∀ k, k ∉ id <$> captured → heldState (switches a') k = None)
  ∧ updateAllSwitches act a db
    = updateAllSwitchesWith (switches a) act a db.
Proof.
  intros a'. subst a'.
  assert (Hsw : switches (updateAllSwitchesWith captured act a db)
                = updatedSwitches captured db) by reflexivity.
  assert (Hw : writes (updateAllSwitchesWith captured act a db)
               = writes a ++ (writeCall act <$> updatedSwitches captured db))
    by reflexivity.
  rewrite Hsw, Hw.
  split; [apply ids_updatedSwitches|].
  split; [apply names_updatedSwitches|].
  split; [apply length_updatedSwitches|].
  split.
  { rewrite drop_app_length, <- list_fmap_compose.
    rewrite <- (ids_updatedSwitches captured db).
    apply list_fmap_ext. now intros i s _. }
  split; [|reflexivity].
  intros k Hk.
  destruct (heldState (updatedSwitches captured db) k) as [b|] eqn:Hh;
    [|reflexivity].
  exfalso. apply Hk. rewrite <- (ids_updatedSwitches captured db).
  apply elem_of_ids_iff_held. rewrite Hh. eauto.
Qed.

(** X9: the optimistic state agrees with its own echo. When the store
    holds, for each write of a decision, the relay's key with the encoded
    state, a pass of the ingest over that map changes nothing and flags no
    change, provided the held ids are distinct. *)
Theorem decision_echo_is_silent (act : Actions) (a : App) (db : list bool) :
  NoDup (id <$> switches a) →
  let a' := updateAllSwitches act a db in
  onSwitchStates (switches a')
    (storeOf (drop (length (writes a)) (writes a')))
  = (switches a', false).
Proof.
  intros Hnd a'. subst a'.
  rewrite switches_updateAllSwitches, writes_updateAllSwitches.
  rewrite drop_app_length.
  unfold onSwitchStates. rewrite foldl_processEntry_unchanged; [reflexivity|].
  intros key s k w Hin Hk Hw.
  unfold storeOf in Hin. rewrite <- list_fmap_compose in Hin.
  apply list_elem_of_fmap in Hin as [x [Heq Hx]].
  cbn in Heq. injection Heq as -> ->.
  rewrite parseInt_of_pretty in Hk. injection Hk as <-.
  cbn in Hw. injection Hw as <-.
  unfold WireCodec.toWire. rewrite negb_involutive.
  apply heldState_NoDup; [|exact Hx].
  now rewrite ids_updatedSwitches.
Qed.

Lemma decision_echo_is_silent_witness :
  NoDup (id <$> switches (appWith None fiveOff))
  ∧ onSwitchStates
      (switches (updateAllSwitches noActions (appWith None fiveOff)
                   [true; false; true]))
      (storeOf
         (writes (updateAllSwitches noActions (appWith None fiveOff)
                    [true; false; true])))
    = (switches (updateAllSwitches noActions (appWith None fiveOff)
                   [true; false; true]), false).
Proof.
  assert (H : NoDup (id <$> switches (appWith None fiveOff))).
  { apply (bool_decide_unpack _). vm_compute. exact I. }
  split; [exact H|].
  exact (decision_echo_is_silent noActions (appWith None fiveOff)
           [true; false; true] H).
Defined.

(** ** The optimisation handler *)

Lemma heldOn_updatedSwitches_5 (sw : list SwitchState)
    (out : IntelligentSwitchControlOutput) :
  length sw = 5%nat →
  heldOn (updatedSwitches sw (newSwitchDbStates out)) = onCount out.
Proof.
  intros Hlen.
  destruct sw as [|s1 [|s2 [|s3 [|s4 [|s5 [|s6 rest]]]]]];
    try discriminate Hlen.
  destruct out as [[] [] [] [] [] r]; reflexivity.
Qed.

(** X10: with a forecast held and an answer of the policy action, the five
    held relays take the decoded answer: as many relays are ON afterwards
    as the answer has outputs [false], five writes are issued, the
    reasoning is shown and the busy flag is cleared. *)
Theorem optimisation_applies_the_answer (act : Actions) (a : App)
    (d : EnergyData) (isAutomatic : bool)
    (p : PredictEnergyConsumptionOutput)
    (out : IntelligentSwitchControlOutput) :
  prediction a = Some p →
  success (runIntelligentSwitchControl act (policyInput a d p)) = true →
  data (runIntelligentSwitchControl act (policyInput a d p)) = Some out →
  length (switches a) = 5%nat →
  let a' := handleOptimization act a d isAutomatic in
  switches a' = updatedSwitches (switches a) (newSwitchDbStates out)
  ∧ heldOn (switches a') = onCount out
  ∧ length (writes a') = (length (writes a) + 5)%nat
  ∧ aiReasoning a' = reasoning out
  ∧ isOptimizing a' = false
  ∧ predictionCalls a' = predictionCalls a.
Proof.
  intros Hp Hs Hd Hlen a'. subst a'.
  unfold handleOptimization. rewrite Hp. cbn beta iota zeta. rewrite Hp.
  change (policyInput (setIsOptimizing true a) d p)
    with (policyInput a d p).
  rewrite Hs, Hd.
  match goal with
  | |- switches ?x = _ ∧ _ =>
      assert (Hsw : switches x
                    = updatedSwitches (switches a) (newSwitchDbStates out))
        by reflexivity;
      assert (Hw : writes x
                   = writes a ++
                     (writeCall act <$>
                        updatedSwitches (switches a) (newSwitchDbStates out)))
        by reflexivity
  end.
  split; [exact Hsw|].
  split; [rewrite Hsw; now apply heldOn_updatedSwitches_5|].
  split; [|repeat split].
  rewrite Hw, length_app, length_fmap, length_updatedSwitches.
  now rewrite Hlen.
Qed.

Lemma optimisation_applies_the_answer_witness :
  prediction (appWith (Some forecast) fiveOff) = Some forecast
  ∧ heldOn
      (switches
         (handleOptimization (answering twoOn)
            (appWith (Some forecast) fiveOff) (defaultsWithLevel 35) true))
    = 2%nat.
Proof.
  split; [reflexivity|].
  exact (proj1 (proj2
    (optimisation_applies_the_answer (answering twoOn)
       (appWith (Some forecast) fiveOff) (defaultsWithLevel 35) true
       forecast twoOn eq_refl eq_refl eq_refl eq_refl))).
Defined.

(** X11: when the policy action fails, by reporting no success or by
    returning no data, the held relays and the write log are untouched;
    one policy call was made, the failure is shown and the busy flag is
    cleared. *)
Theorem optimisation_failure_changes_nothing (act : Actions) (a : App)
    (d : EnergyData) (isAutomatic : bool)
    (p : PredictEnergyConsumptionOutput) :
  prediction a = Some p →
  success (runIntelligentSwitchControl act (policyInput a d p)) = false
  ∨ data (runIntelligentSwitchControl act (policyInput a d p)) = None →
  let a' := handleOptimization act a d isAutomatic in
  switches a' = switches a
  ∧ writes a' = writes a
  ∧ policyCalls a' = policyCalls a ++ [policyInput a d p]
  ∧ toasts a' = toasts a ++ [mkToast true "Optimization Failed"]
  ∧ aiReasoning a' = aiReasoning a
  ∧ isOptimizing a' = false.
Proof.
  intros Hp Hfail a'. subst a'.
  unfold handleOptimization. rewrite Hp. cbn beta iota zeta. rewrite Hp.
  change (policyInput (setIsOptimizing true a) d p)
    with (policyInput a d p).
  destruct Hfail as [Hs|Hd].
  - rewrite Hs. repeat split.
  - rewrite Hd.
    destruct (success (runIntelligentSwitchControl act (policyInput a d p)));
      repeat split.
Qed.

Lemma optimisation_failure_changes_nothing_witness :
  prediction (appWith (Some forecast) fiveOff) = Some forecast
  ∧ switches
      (handleOptimization noActions (appWith (Some forecast) fiveOff)
         (defaultsWithLevel 35) true)
    = fiveOff.
Proof.
  split; [reflexivity|].
  exact (proj1
    (optimisation_failure_changes_nothing noActions
       (appWith (Some forecast) fiveOff) (defaultsWithLevel 35) true
       forecast eq_refl (or_introl eq_refl))).
Defined.

(** X12: the forecast cache is never cleared. A refresh that fails keeps
    the forecast held before; an optimisation started with a forecast
    held, and a manual toggle, leave it as it is and fetch nothing. *)
Theorem forecast_cache_is_kept (act : Actions) (a : App) (d : EnergyData)
    (isAutomatic : bool) (k : Z) (checked : bool)
    (p : PredictEnergyConsumptionOutput) :
  prediction a = Some p →
  is_Some (prediction (handlePrediction act a))
  ∧ (success (runEnergyPrediction act) = false
     ∨ data (runEnergyPrediction act) = None →
     prediction (handlePrediction act a) = Some p)
  ∧ prediction (handleOptimization act a d isAutomatic) = Some p
  ∧ predictionCalls (handleOptimization act a d isAutomatic)
    = predictionCalls a
  ∧ prediction (handleSwitchChange act a k checked) = Some p
  ∧ predictionCalls (handleSwitchChange act a k checked)
    = predictionCalls a.
Proof.
  intros Hp.
  split; [|split; [|split; [|split; [|split]]]].
  - unfold handlePrediction.
    destruct (success (runEnergyPrediction act)),
      (data (runEnergyPrediction act)); cbn; rewrite ?Hp; eauto.
  - unfold handlePrediction. intros [Hs|Hd].
    + rewrite Hs. cbn. exact Hp.
    + rewrite Hd. destruct (success (runEnergyPrediction act)); exact Hp.
  - unfold handleOptimization. rewrite Hp. cbn beta iota zeta. rewrite Hp.
    destruct (runIntelligentSwitchControl act _) as [[] [out|] e];
      exact Hp.
  - unfold handleOptimization. rewrite Hp. cbn beta iota zeta. rewrite Hp.
    destruct (runIntelligentSwitchControl act _) as [[] [out|] e];
      reflexivity.
  - unfold handleSwitchChange.
    destruct (findIndex k (switches a)) as [[i t]|]; [|exact Hp].
    destruct (success _); exact Hp.
  - unfold handleSwitchChange.
    destruct (findIndex k (switches a)) as [[i t]|]; [|reflexivity].
    destruct (success _); reflexivity.
Qed.

Lemma forecast_cache_is_kept_witness :
  prediction (appWith (Some forecast) fiveOff) = Some forecast
  ∧ prediction (handlePrediction noActions (appWith (Some forecast) fiveOff))
    = Some forecast.
Proof.
  split; [reflexivity|].
  exact (proj1 (proj2
    (forecast_cache_is_kept noActions (appWith (Some forecast) fiveOff)
       (defaultsWithLevel 35) true 3 true forecast eq_refl))
    (or_introl eq_refl)).
Defined.

(** ** The manual toggle *)

Lemma setStateOf_cons (x : SwitchState) (l : list SwitchState) (k : Z)
    (b : bool) :
  setStateOf k b (x :: l)
  = (if decide (id x = k)
     then {| id := id x; name := name x; state := b |} else x)
    :: setStateOf k b l.
Proof. reflexivity. Qed.

Lemma heldState_setStateOf (l : list SwitchState) (k k' : Z) (b : bool) :
  heldState (setStateOf k b l) k'
  = if decide (k = k') then (λ _, b) <$> heldState l k'
    else heldState l k'.
Proof.
  induction l as [|x l IH].
  - change (setStateOf k b []) with (@nil SwitchState).
    rewrite !heldState_nil. now case_decide.
  - rewrite setStateOf_cons.
    destruct (decide (id x = k)) as [Hx|Hx];
      rewrite !heldState_cons, IH; cbn [id state];
      destruct (decide (k = k')) as [Hk|Hk];
      destruct (decide (id x = k')) as [Hx'|Hx'];
      try reflexivity; congruence.
Qed.

Lemma ids_setStateOf (l : list SwitchState) (k : Z) (b : bool) :
  id <$> setStateOf k b l = id <$> l.
Proof.
  unfold setStateOf. rewrite <- list_fmap_compose.
  apply list_fmap_ext. intros i s _. cbn. now case_decide.
Qed.

Lemma setStateOf_same (l : list SwitchState) (k : Z) (b : bool) :
  (∀ s, s ∈ l → id s = k → state s = b) → setStateOf k b l = l.
Proof.
  intros H. unfold setStateOf. rewrite <- (list_fmap_id l) at 2.
  apply list_fmap_ext. intros i s Hs. cbn.
  case_decide as Hk; [|reflexivity].
  apply list_elem_of_lookup_2 in Hs. rewrite <- (H s Hs Hk).
  now destruct s.
Qed.

(** X13: a manual toggle touches one relay. Whatever the outcome of the
    write, the ids held stay as they are and every other relay keeps its
    state; at most one write is issued, and none at all, with the state
    untouched, when the id is not held. *)
Theorem toggle_touches_one_relay (act : Actions) (a : App) (k : Z)
    (checked : bool) :
  let a' := handleSwitchChange act a k checked in
  id <$> switches a' = id <$> switches a
  ∧ (∀ k', k' ≠ k →
           heldState (switches a') k' = heldState (switches a) k')
  ∧ (length (writes a') ≤ length (writes a) + 1)%nat
  ∧ (findIndex k (switches a) = None → a' = a).
Proof.
  intros a'. subst a'. unfold handleSwitchChange.
  destruct (findIndex k (switches a)) as [[i t]|] eqn:Hf.
  - destruct (success (updateSwitchState act k (name t) checked));
      cbn -[heldState setStateOf].
    + split; [apply ids_setStateOf|]. split.
      * intros k' Hk'. rewrite heldState_setStateOf.
        now rewrite decide_False by congruence.
      * split; [rewrite length_app; cbn; lia | discriminate].
    + split; [now rewrite !ids_setStateOf|]. split.
      * intros k' Hk'. rewrite !heldState_setStateOf.
        now rewrite !decide_False by congruence.
      * split; [rewrite length_app; cbn; lia | discriminate].
  - split; [reflexivity|]. split; [reflexivity|]. split; [lia|reflexivity].
Qed.

(** X14: what a failed toggle leaves behind. The relay ends at the
    negation of the requested state; this gives back the held list exactly
    as it was when the request really was a toggle (every entry of that id
    held the other state), while a request for the state already held
    ends with the relay flipped. *)
Theorem failed_toggle_outcome (act : Actions) (a : App) (k : Z)
    (checked : bool) (i : nat) (target : SwitchState) :
  findIndex k (switches a) = Some (i, target) →
  success (updateSwitchState act k (name target) checked) = false →
  let a' := handleSwitchChange act a k checked in
  heldState (switches a') k = Some (negb checked)
  ∧ ((∀ s, s ∈ switches a → id s = k → state s = negb checked) →
     switches a' = switches a)
  ∧ (state target = checked → heldState (switches a') k
                             ≠ heldState (switches a) k).
Proof.
  intros Hf Hs a'. subst a'. unfold handleSwitchChange. rewrite Hf, Hs.
  cbn -[heldState setStateOf]. rewrite setStateOf_twice.
  assert (Hh : heldState (setStateOf k (negb checked) (switches a)) k
               = Some (negb checked)).
  { rewrite heldState_setStateOf, decide_True by reflexivity.
    now rewrite (heldState_findIndex _ _ _ _ Hf). }
  split; [exact Hh|]. split.
  - apply setStateOf_same.
  - intros Ht. rewrite Hh, (heldState_findIndex _ _ _ _ Hf), Ht.
    destruct checked; discriminate.
Qed.

Lemma failed_toggle_outcome_witness :
  findIndex 3 fiveOff = Some (2%nat, relay 3 false)
  ∧ switches (handleSwitchChange (failingFor 3) (appWith None fiveOff) 3 true)
    = fiveOff.
Proof.
  split; [reflexivity|].
  apply (proj1 (proj2
    (failed_toggle_outcome (failingFor 3) (appWith None fiveOff) 3 true
       2%nat (relay 3 false) eq_refl eq_refl))).
  intros s Hs Hk. cbn in Hs.
  repeat (apply elem_of_cons in Hs as [->|Hs]; [try discriminate Hk; reflexivity|]).
  inversion Hs.
Defined.

(** ** The threshold guard on arbitrary streams *)

Section GuardStreamFacts.

Variable INITIAL_ENERGY_DATA : EnergyData.

(** After a request the ref holds a level below the threshold. *)
Lemma Guard_step_fired (st : Guard.State) (s : option LatestData) :
  (Guard.step INITIAL_ENERGY_DATA st s).2 = true →
  ∃ b, Guard.previousBatteryLevel (Guard.step INITIAL_ENERGY_DATA st s).1
       = Some b ∧ b < 40.
Proof.
  destruct s as [ld|]; [|discriminate].
  cbn [Guard.step Guard.onEnergyValue snd fst]. intros H.
  apply (onEnergyValue_fires_iff INITIAL_ENERGY_DATA st ld) in H
    as (p & b & _ & Hb & _ & Hlt).
  exists b. split; [|exact Hlt].
  cbn. f_equal. now apply newEnergyData_level.
Qed.

Lemma Guard_step_low (st : Guard.State) (s : option LatestData) (p : Z) :
  Guard.previousBatteryLevel st = Some p → p < 40 →
  (Guard.step INITIAL_ENERGY_DATA st s).2 = false.
Proof.
  intros Hp Hlt. destruct s as [ld|]; [|reflexivity].
  cbn [Guard.step Guard.onEnergyValue snd]. rewrite Hp.
  cbn [Guard.shouldAutomate].
  replace (40 <=? p) with false by (symmetry; apply Z.leb_gt; lia).
  apply andb_false_r.
Qed.

Lemma LatchGuard_step_level (st : LatchGuard.State) (ld : LatestData) :
  batteryLevel (LatchGuard.energyData (LatchGuard.step st (Some ld)).1)
  = ld_batteryLevel ld ?? batteryLevel (LatchGuard.energyData st).
Proof.
  cbn [LatchGuard.step].
  repeat match goal with
         | |- context [if ?c then _ else _] => destruct c
         end; reflexivity.
Qed.

Lemma LatchGuard_step_fired (st : LatchGuard.State) (s : option LatestData) :
  (LatchGuard.step st s).2 = true →
  batteryLevel (LatchGuard.energyData (LatchGuard.step st s).1) < 40
  ∧ 40 ≤ batteryLevel (LatchGuard.energyData st).
Proof.
  destruct s as [ld|]; [|discriminate].
  rewrite LatchGuard_step_level. cbn [LatchGuard.step].
  destruct (Z.ltb_spec
              (ld_batteryLevel ld ?? batteryLevel (LatchGuard.energyData st))
              40);
    destruct (Z.leb_spec 40 (batteryLevel (LatchGuard.energyData st)));
    destruct (LatchGuard.lowBatteryOptimizationTriggered st);
    cbn [andb negb];
    repeat match goal with
           | |- context [if ?c then _ else _] => destruct c
           end; cbn [snd]; intros; try discriminate; split; assumption.
Qed.

Lemma LatchGuard_step_sound (st : LatchGuard.State)
    (s : option LatestData) :
  latchSound st → latchSound (LatchGuard.step st s).1.
Proof.
  unfold latchSound. intros Hinv. destruct s as [ld|]; [|exact Hinv].
  pose proof (LatchGuard_step_level st ld) as Hlvl.
  revert Hlvl. cbn [LatchGuard.step].
  destruct (Z.ltb_spec
              (ld_batteryLevel ld ?? batteryLevel (LatchGuard.energyData st))
              40);
    destruct (Z.leb_spec 40 (batteryLevel (LatchGuard.energyData st)));
    destruct (LatchGuard.lowBatteryOptimizationTriggered st);
    cbn [andb negb];
    try (destruct (Z.leb_spec 40
           (ld_batteryLevel ld ?? batteryLevel (LatchGuard.energyData st))));
    cbn [fst LatchGuard.lowBatteryOptimizationTriggered
         LatchGuard.energyData];
    intros Hlvl; rewrite ?Hlvl; intros; try discriminate; try lia;
    specialize (Hinv eq_refl); lia.
Qed.

Lemma latchAfter_sound (snapshots : list (option LatestData)) :
  latchSound (latchAfter INITIAL_ENERGY_DATA snapshots).
Proof.
  unfold latchAfter.
  induction snapshots as [|s snapshots IH] using rev_ind.
  - unfold latchSound. cbn. discriminate.
  - rewrite foldl_app. cbn [foldl]. now apply LatchGuard_step_sound.
Qed.

End GuardStreamFacts.

(** With a render after every snapshot the guard never requests the
    optimisation on two observations in a row. *)
Lemma Guard_run_noTwoInARow (INITIAL_ENERGY_DATA : EnergyData)
    (snapshots : list (option LatestData)) (st : Guard.State) :
  noTwoInARow (Guard.run INITIAL_ENERGY_DATA st snapshots) = true.
Proof.
  revert st. induction snapshots as [|s rest IH]; intros st; [reflexivity|].
  cbn [Guard.run].
  destruct (Guard.step INITIAL_ENERGY_DATA st s) as [st1 f1] eqn:H1.
  specialize (IH st1).
  destruct rest as [|s2 rest]; [reflexivity|].
  cbn [Guard.run] in IH |- *.
  destruct (Guard.step INITIAL_ENERGY_DATA st1 s2) as [st2 f2] eqn:H2.
  cbn [noTwoInARow] in IH |- *. rewrite IH, andb_true_r.
  destruct f1; [|reflexivity].
  destruct (Guard_step_fired INITIAL_ENERGY_DATA st s) as (b & Hb & Hlt);
    [now rewrite H1|].
  rewrite H1 in Hb. cbn [fst] in Hb.
  pose proof (Guard_step_low INITIAL_ENERGY_DATA st1 s2 b Hb Hlt) as Hf.
  rewrite H2 in Hf. cbn [snd] in Hf. now rewrite Hf.
Qed.

Lemma runEvents_rendered (INITIAL_ENERGY_DATA : EnergyData)
    (snapshots : list (option LatestData)) : ∀ st,
  runEvents INITIAL_ENERGY_DATA st (rendered snapshots)
  = Guard.run INITIAL_ENERGY_DATA st snapshots.
Proof.
  induction snapshots as [|s rest IH]; intros st; [reflexivity|].
  change (rendered (s :: rest)) with (Snapshot s :: Render :: rendered rest).
  cbn [runEvents Guard.run]. unfold Guard.step.
  destruct (Guard.onEnergyValue INITIAL_ENERGY_DATA st s) as [st1 f1].
  cbn beta iota zeta. f_equal. apply IH.
Qed.

Lemma onEnergyValue_keeps_ref (INITIAL_ENERGY_DATA : EnergyData)
    (st : Guard.State) (s : option LatestData) :
  Guard.previousBatteryLevel
    (Guard.onEnergyValue INITIAL_ENERGY_DATA st s).1
  = Guard.previousBatteryLevel st
  ∧ (Guard.onEnergyValue INITIAL_ENERGY_DATA st s).2
    = Guard.shouldAutomate (Guard.previousBatteryLevel st) (carriedLevel s).
Proof.
  destruct s as [ld|]; cbn; [split; reflexivity|].
  split; [reflexivity|]. now destruct (Guard.previousBatteryLevel st).
Qed.

(** X16: the debounce of the guard of dashboard.tsx rests on the render
    between snapshots. On any stream in which a render follows every
    snapshot (records without a level and empty snapshots included), from
    any state, no two observations in a row request the optimisation;
    snapshots handled with no render in between are each compared with
    the level the ref held before the first of them. *)
Theorem guard_debounce_needs_a_render (INITIAL_ENERGY_DATA : EnergyData)
    (snapshots : list (option LatestData)) (st : Guard.State) :
  noTwoInARow (runEvents INITIAL_ENERGY_DATA st (rendered snapshots)) = true
  ∧ runEvents INITIAL_ENERGY_DATA st (Snapshot <$> snapshots)
    = (λ s, Guard.shouldAutomate (Guard.previousBatteryLevel st)
              (carriedLevel s)) <$> snapshots.
Proof.
  split.
  - rewrite runEvents_rendered. apply Guard_run_noTwoInARow.
  - revert st. induction snapshots as [|s rest IH]; intros st;
      [reflexivity|].
    cbn [fmap list_fmap runEvents].
    destruct (onEnergyValue_keeps_ref INITIAL_ENERGY_DATA st s) as [Hr Hf].
    destruct (Guard.onEnergyValue INITIAL_ENERGY_DATA st s) as [st1 f1].
    cbn [fst snd] in Hr, Hf. rewrite IH, Hr, Hf. reflexivity.
Qed.

(** X17: in the earlier revision the latch never suppresses a request.
    In every state reached from the mounted component, a record requests
    the optimisation exactly when its level (the held one if it carries
    none) is below 40 while the held level is at least 40: the test of
    [lowBatteryOptimizationTriggered] never decides. *)
Theorem latch_never_decides (INITIAL_ENERGY_DATA : EnergyData)
    (snapshots : list (option LatestData)) (ld : LatestData) :
  let st := latchAfter INITIAL_ENERGY_DATA snapshots in
  let held := batteryLevel (LatchGuard.energyData st) in
  (LatchGuard.step st (Some ld)).2
  = ((ld_batteryLevel ld ?? held) <? 40) && (40 <=? held).
Proof.
  intros st held.
  pose proof (latchAfter_sound INITIAL_ENERGY_DATA snapshots) as Hinv.
  fold st in Hinv. unfold latchSound in Hinv. fold held in Hinv.
  cbn [LatchGuard.step]. fold held.
  destruct (Z.ltb_spec (ld_batteryLevel ld ?? held) 40);
    destruct (Z.leb_spec 40 held);
    destruct (LatchGuard.lowBatteryOptimizationTriggered st);
    cbn [andb negb];
    try (exfalso; specialize (Hinv eq_refl); lia);
    repeat match goal with
           | |- context [if ?c then _ else _] => destruct c
           end; reflexivity.
Qed.

Section LatchCount.

Lemma LatchGuard_run_low (snapshots : list (option LatestData)) :
  ∀ st,
    (∀ s b, s ∈ snapshots → carriedLevel s = Some b → b < 40) →
    batteryLevel (LatchGuard.energyData st) < 40 →
    count_true (LatchGuard.run st snapshots) = 0%nat.
Proof.
  induction snapshots as [|s rest IH]; intros st Hall Hlow; [reflexivity|].
  cbn [LatchGuard.run].
  destruct (LatchGuard.step st s) as [st1 f1] eqn:H1.
  assert (Hf : f1 = false).
  { destruct f1; [|reflexivity].
    destruct (LatchGuard_step_fired st s) as [_ Hge]; [now rewrite H1|].
    lia. }
  subst f1.
  assert (Hlow1 : batteryLevel (LatchGuard.energyData st1) < 40).
  { destruct s as [ld|].
    - pose proof (LatchGuard_step_level st ld) as Hl.
      rewrite H1 in Hl. cbn [fst] in Hl. rewrite Hl.
      destruct (ld_batteryLevel ld) as [b|] eqn:Hb; cbn [nullish];
        [|exact Hlow].
      apply (Hall (Some ld) b); [left | exact Hb].
    - cbn in H1. now injection H1 as <-. }
  unfold count_true in *. rewrite filter_cons, decide_False by discriminate.
  apply IH; [|exact Hlow1]. intros s' b Hin. apply Hall. now right.
Qed.

End LatchCount.

(** X18: in the earlier revision one excursion gives at most one request:
    on any stream in which no record carries a level of 40 or more, the
    optimisation is requested at most once, from any state. *)
Theorem latch_guard_once_per_excursion
    (snapshots : list (option LatestData)) (st : LatchGuard.State) :
  (∀ s b, s ∈ snapshots → carriedLevel s = Some b → b < 40) →
  (count_true (LatchGuard.run st snapshots) ≤ 1)%nat.
Proof.
  revert st. induction snapshots as [|s rest IH]; intros st Hall;
    [cbn; lia|].
  cbn [LatchGuard.run].
  destruct (LatchGuard.step st s) as [st1 f1] eqn:H1.
  assert (Hrest : ∀ s' b, s' ∈ rest → carriedLevel s' = Some b → b < 40).
  { intros s' b Hin. apply Hall. now right. }
  unfold count_true in *. rewrite filter_cons. destruct f1.
  - rewrite decide_True by reflexivity. cbn [length].
    destruct (LatchGuard_step_fired st s) as [Hlow _]; [now rewrite H1|].
    rewrite H1 in Hlow. cbn [fst] in Hlow.
    pose proof (LatchGuard_run_low rest st1 Hrest Hlow) as H0.
    unfold count_true in H0. rewrite H0. lia.
  - rewrite decide_False by discriminate. now apply IH.
Qed.

Lemma latch_guard_once_per_excursion_witness :
  (∀ s b, s ∈ [Some (levelOnly 35); Some emptyRecord; Some (levelOnly 20)] →
          carriedLevel s = Some b → b < 40)
  ∧ (count_true
       (LatchGuard.run (LatchGuard.mounted (defaultsWithLevel 80))
          [Some (levelOnly 35); Some emptyRecord; Some (levelOnly 20)])
     ≤ 1)%nat.
Proof.
  assert (H : ∀ s b,
            s ∈ [Some (levelOnly 35); Some emptyRecord; Some (levelOnly 20)] →
            carriedLevel s = Some b → b < 40).
  { intros s b Hs Hb.
    repeat (apply elem_of_cons in Hs as [->|Hs];
            [cbn in Hb; try discriminate Hb; injection Hb as <-; lia|]).
    inversion Hs. }
  split; [exact H|].
  exact (latch_guard_once_per_excursion _
           (LatchGuard.mounted (defaultsWithLevel 80)) H).
Defined.

(** The guard of dashboard.tsx has no such bound: a record without a level
    puts the default level back in the ref, and with a default of 80 the
    same stream requests the optimisation twice. *)
Example guard_rearmed_by_record_without_level :
  Guard.run (defaultsWithLevel 80) (Guard.mounted (defaultsWithLevel 80))
    [Some (levelOnly 35); Some emptyRecord; Some (levelOnly 20)]
  = [true; false; true].
Proof. reflexivity. Qed.

(** ** Telemetry *)

Lemma powerOf_idem (ld : LatestData) (fb : Z) :
  powerOf ld (powerOf ld fb) = powerOf ld fb.
Proof.
  unfold powerOf.
  now destruct (truthy (ld_voltage ld) && truthy (ld_current ld)).
Qed.

(** X19: in dashboard.tsx the held snapshot has no memory: after any
    stream it is the snapshot built from the last record alone, and after
    a record with no field it is the default snapshot again. *)
Theorem held_snapshot_is_last_record (INITIAL_ENERGY_DATA : EnergyData)
    (snapshots : list LatestData) (ld : LatestData) :
  heldAfter INITIAL_ENERGY_DATA (snapshots ++ [ld])
  = newEnergyData INITIAL_ENERGY_DATA ld
  ∧ heldAfter INITIAL_ENERGY_DATA (snapshots ++ [emptyRecord])
    = INITIAL_ENERGY_DATA.
Proof.
  unfold heldAfter. rewrite !foldl_app. cbn [foldl]. split; [reflexivity|].
  cbn. now destruct INITIAL_ENERGY_DATA.
Qed.

(** X20: in the earlier revision merging is idempotent and a record with
    no field is neutral: applying the same record twice gives the same
    snapshot as applying it once, and an empty record leaves the held
    snapshot as it is. *)
Theorem merge_is_idempotent (prev : EnergyData) (ld : LatestData) :
  mergeWithPrev (mergeWithPrev prev ld) ld = mergeWithPrev prev ld
  ∧ mergeWithPrev prev emptyRecord = prev.
Proof.
  split.
  - unfold mergeWithPrev. cbn [voltage current batteryLevel power
      temperature humidity totalConsumption energyRemain].
    rewrite powerOf_idem.
    destruct ld as [v c b pw t h tc er].
    cbn [ld_voltage ld_current ld_batteryLevel ld_temperature ld_humidity].
    destruct v, c, b, t, h; reflexivity.
  - now destruct prev.
Qed.

(** ** The stream callback of the sketches *)

Section PinFacts.

Import Firmware.

Ltac relay_case k H :=
  let Hc := fresh "Hc" in
  assert (Hc : k = 1 ∨ k = 2 ∨ k = 3 ∨ k = 4 ∨ k = 5) by lia;
  clear H; destruct Hc as [-> | [-> | [-> | [-> | ->]]]].

Lemma NC_pin_cases (k : Z) :
  (1 ≤ k ≤ 5 ∧ NC.getPinForSwitch k ≠ -1) ∨
  (¬ 1 ≤ k ≤ 5 ∧ NC.getPinForSwitch k = -1).
Proof.
  destruct k as [|p|p]; [right; split; [lia|reflexivity] | |
                         right; split; [lia|reflexivity]].
  destruct p as [[[q|q|]|[q|q|]|]|[[q|q|]|[q|q|]|]|]; cbn;
    first [left; split; [lia|discriminate] | right; split; [lia|reflexivity]].
Qed.

Lemma Example_pin_cases (k : Z) :
  (1 ≤ k ≤ 5 ∧ Example.getPinForSwitch k ≠ -1) ∨
  (¬ 1 ≤ k ≤ 5 ∧ Example.getPinForSwitch k = -1).
Proof.
  destruct k as [|p|p]; [right; split; [lia|reflexivity] | |
                         right; split; [lia|reflexivity]].
  destruct p as [[[q|q|]|[q|q|]|]|[[q|q|]|[q|q|]|]|]; cbn;
    first [left; split; [lia|discriminate] | right; split; [lia|reflexivity]].
Qed.

Lemma NC_pin_inj (k k' : Z) :
  1 ≤ k ≤ 5 → 1 ≤ k' ≤ 5 →
  NC.getPinForSwitch k = NC.getPinForSwitch k' → k = k'.
Proof.
  intros H H'. relay_case k H; relay_case k' H'; cbn; intros E;
    first [reflexivity | discriminate E].
Qed.

Lemma Example_pin_inj (k k' : Z) :
  1 ≤ k ≤ 5 → 1 ≤ k' ≤ 5 →
  Example.getPinForSwitch k = Example.getPinForSwitch k' → k = k'.
Proof.
  intros H H'. relay_case k H; relay_case k' H'; cbn; intros E;
    first [reflexivity | discriminate E].
Qed.

(** A write for a relay leaves every other pin as it was, and a write for
    an id outside 1..5 leaves all pins as they were. *)
Lemma NC_writeSwitch_frame k v (gpio : gmap Z Level) pin :
  pin ≠ NC.getPinForSwitch k →
  NC.writeSwitch k v gpio !! pin = gpio !! pin.
Proof.
  intros Hpin. unfold NC.writeSwitch.
  destruct (0 <? k); [|reflexivity].
  case_decide; [|reflexivity].
  unfold digitalWrite. now rewrite lookup_insert_ne by congruence.
Qed.

Lemma NC_writeSwitch_unknown k v (gpio : gmap Z Level) :
  ¬ 1 ≤ k ≤ 5 → NC.writeSwitch k v gpio = gpio.
Proof.
  intros Hk. unfold NC.writeSwitch.
  destruct (0 <? k); [|reflexivity].
  destruct (NC_pin_cases k) as [[H _]|[_ H]]; [contradiction|].
  rewrite H. reflexivity.
Qed.

Lemma Example_writeSwitch_frame k v (gpio : gmap Z Level) pin :
  pin ≠ Example.getPinForSwitch k →
  Example.writeSwitch k v gpio !! pin = gpio !! pin.
Proof.
  intros Hpin. unfold Example.writeSwitch.
  destruct (0 <? k); [|reflexivity].
  case_decide; [|reflexivity].
  unfold digitalWrite. now rewrite lookup_insert_ne by congruence.
Qed.

Lemma Example_writeSwitch_unknown k v (gpio : gmap Z Level) :
  ¬ 1 ≤ k ≤ 5 → Example.writeSwitch k v gpio = gpio.
Proof.
  intros Hk. unfold Example.writeSwitch.
  destruct (0 <? k); [|reflexivity].
  destruct (Example_pin_cases k) as [[H _]|[_ H]]; [contradiction|].
  rewrite H. reflexivity.
Qed.

Lemma loadNC_cons e entries (gpio : gmap Z Level) :
  loadNC gpio (e :: entries)
  = loadNC (match e.2 with
            | Some v => NC.writeSwitch e.1 v gpio
            | None => gpio
            end) entries.
Proof. reflexivity. Qed.

Lemma loadNC_untouched entries : ∀ (gpio : gmap Z Level) k,
  1 ≤ k ≤ 5 → k ∉ entries.*1 →
  loadNC gpio entries !! NC.getPinForSwitch k
  = gpio !! NC.getPinForSwitch k.
Proof.
  induction entries as [|[k' v'] entries IH]; intros gpio k Hk Hnot;
    [reflexivity|].
  cbn [fmap list_fmap fst] in Hnot.
  apply not_elem_of_cons in Hnot as [Hne Hnot].
  rewrite loadNC_cons, IH by assumption. cbn [fst snd].
  destruct v' as [v|]; [|reflexivity].
  destruct (NC_pin_cases k') as [[Hk' _]|[Hk' _]].
  - apply NC_writeSwitch_frame. intros E. apply Hne.
    now apply NC_pin_inj.
  - now rewrite NC_writeSwitch_unknown.
Qed.

End PinFacts.

(** X21: both sketches map the relay ids 1 to 5 to five different pins
    and every other id to -1, so no two relays share a pin and no other
    id reaches one. *)
Theorem pins_are_distinct (k k' : Z) :
  (Firmware.NC.getPinForSwitch k = -1 ↔ ¬ 1 ≤ k ≤ 5)
  ∧ (Firmware.Example.getPinForSwitch k = -1 ↔ ¬ 1 ≤ k ≤ 5)
  ∧ (1 ≤ k ≤ 5 → 1 ≤ k' ≤ 5 →
     Firmware.NC.getPinForSwitch k = Firmware.NC.getPinForSwitch k' →
     k = k')
  ∧ (1 ≤ k ≤ 5 → 1 ≤ k' ≤ 5 →
     Firmware.Example.getPinForSwitch k
     = Firmware.Example.getPinForSwitch k' →
     k = k').
Proof.
  split; [|split; [|split]].
  - destruct (NC_pin_cases k) as [[H1 H2]|[H1 H2]]; tauto.
  - destruct (Example_pin_cases k) as [[H1 H2]|[H1 H2]]; tauto.
  - apply NC_pin_inj.
  - apply Example_pin_inj.
Qed.

(** X22: a state update reaches one pin at most. In both sketches the
    update of relay [k] leaves every pin other than the pin of [k] as it
    was, and an update for an id outside 1..5 changes no pin at all. *)
Theorem state_update_touches_one_pin (k : Z) (dataType : string)
    (payload : bool) (gpio : gmap Z Firmware.Level) (pin : Z) :
  (pin ≠ Firmware.NC.getPinForSwitch k →
   Firmware.NC.streamCallback
     (Firmware.StateUpdate k dataType payload) gpio !! pin = gpio !! pin)
  ∧ (pin ≠ Firmware.Example.getPinForSwitch k →
     Firmware.Example.streamCallback
       (Firmware.StateUpdate k dataType payload) gpio !! pin = gpio !! pin)
  ∧ (¬ 1 ≤ k ≤ 5 →
     Firmware.NC.streamCallback
       (Firmware.StateUpdate k dataType payload) gpio = gpio
     ∧ Firmware.Example.streamCallback
         (Firmware.StateUpdate k dataType payload) gpio = gpio).
Proof.
  cbn [Firmware.NC.streamCallback Firmware.Example.streamCallback].
  split; [apply NC_writeSwitch_frame|].
  split; [apply Example_writeSwitch_frame|].
  intros Hk. split.
  - now apply NC_writeSwitch_unknown.
  - now apply Example_writeSwitch_unknown.
Qed.

(** X23: the NC firmware reads a payload that is not reported as a boolean
    as [false]: whatever the payload, the pin of the relay is written
    HIGH. *)
Theorem non_boolean_update_writes_high (k : Z) (dataType : string)
    (payload : bool) (gpio : gmap Z Firmware.Level) :
  1 ≤ k ≤ 5 → dataType ≠ "boolean" →
  Firmware.NC.streamCallback (Firmware.StateUpdate k dataType payload) gpio
    !! Firmware.NC.getPinForSwitch k
  = Some Firmware.HIGH.
Proof.
  intros Hk Hdt. cbn [Firmware.NC.streamCallback].
  apply String.eqb_neq in Hdt. rewrite Hdt. cbn [andb].
  now rewrite NC_writeSwitch_lookup.
Qed.

Lemma non_boolean_update_writes_high_witness :
  1 ≤ 2 ≤ 5
  ∧ Firmware.NC.streamCallback (Firmware.StateUpdate 2 "int" true) ∅ !! 14
    = Some Firmware.HIGH.
Proof.
  assert (H : 1 ≤ 2 ≤ 5) by lia.
  split; [exact H|].
  apply (non_boolean_update_writes_high 2 "int" true ∅ H). discriminate.
Defined.

Lemma loadNC_app (pre post : list (Z * option bool))
    (gpio : gmap Z Firmware.Level) :
  loadNC gpio (pre ++ post) = loadNC (loadNC gpio pre) post.
Proof. unfold loadNC. cbn [Firmware.NC.streamCallback]. apply foldl_app. Qed.

Lemma loadNC_not_listed (entries : list (Z * option bool)) :
  ∀ (gpio : gmap Z Firmware.Level) k,
    1 ≤ k ≤ 5 → (∀ v, (k, Some v) ∉ entries) →
    loadNC gpio entries !! Firmware.NC.getPinForSwitch k
    = gpio !! Firmware.NC.getPinForSwitch k.
Proof.
  induction entries as [|[k' v'] entries IH]; intros gpio k Hk Hnot;
    [reflexivity|].
  rewrite loadNC_cons, IH; [|exact Hk|].
  - cbn [fst snd]. destruct v' as [v|]; [|reflexivity].
    destruct (NC_pin_cases k') as [[Hk' _]|[Hk' _]].
    + apply NC_writeSwitch_frame. intros E.
      apply (NC_pin_inj k k' Hk Hk') in E. subst k'.
      apply (Hnot v). apply list_elem_of_here.
    + now rewrite NC_writeSwitch_unknown.
  - intros v Hin. apply (Hnot v). now apply list_elem_of_further.
Qed.

(** X24: in the initial load of the NC firmware the last state listed for
    a relay wins, and nothing else reaches its pin. For a JSON payload at
    the root and a relay id from 1 to 5, the pin holds afterwards the
    level of the last entry that lists the relay with a state (LOW for
    [true], HIGH for [false]), whatever other entries, repeated ids and
    entries without a state included, come before or after; entries that
    do not list the relay with a state leave its pin as it was. *)
Theorem initial_load_last_state_wins
    (pre post : list (Z * option bool)) (gpio : gmap Z Firmware.Level)
    (k : Z) (v : bool) :
  1 ≤ k ≤ 5 → (∀ v', (k, Some v') ∉ post) →
  Firmware.NC.streamCallback
    (Firmware.Json true (pre ++ (k, Some v) :: post)) gpio
    !! Firmware.NC.getPinForSwitch k
  = Some (Firmware.NC.levelFor v)
  ∧ Firmware.NC.streamCallback (Firmware.Json true post) gpio
      !! Firmware.NC.getPinForSwitch k
    = gpio !! Firmware.NC.getPinForSwitch k.
Proof.
  intros Hk Hpost. split.
  - fold (loadNC gpio (pre ++ (k, Some v) :: post)).
    rewrite loadNC_app, loadNC_cons. cbn [fst snd].
    rewrite loadNC_not_listed by assumption.
    now apply NC_writeSwitch_lookup.
  - now apply (loadNC_not_listed post gpio k).
Qed.

Lemma initial_load_last_state_wins_witness :
  1 ≤ 3 ≤ 5
  ∧ Firmware.NC.streamCallback
      (Firmware.Json true
         [(0, None); (3, Some false); (0, None); (3, Some true);
          (0, None); (9, None)]) ∅
      !! 27
    = Some Firmware.LOW.
Proof.
  assert (H : 1 ≤ 3 ≤ 5) by lia.
  split; [exact H|].
  refine (proj1 (initial_load_last_state_wins
                   [(0, None); (3, Some false); (0, None)]
                   [(0, None); (9, None)] ∅ 3 true H _)).
  intros v' Hin.
  repeat (apply elem_of_cons in Hin as [Hin|Hin]; [discriminate Hin|]).
  inversion Hin.
Defined.

(** ** The timers of the sketches *)

Lemma wrap32_elapsed (last d : Z) :
  0 ≤ d < 2 ^ 32 →
  Timer.wrap32 (Timer.wrap32 (last + d) - last) = d.
Proof.
  intros Hd. unfold Timer.wrap32.
  rewrite Zminus_mod_idemp_l.
  replace (last + d - last) with d by lia.
  now apply Z.mod_small.
Qed.

(** X25: the timers survive the overflow of [millis()]. Each test
    fires exactly when the time passed between the time stored and its
    own read of [millis()] exceeds its interval, wherever the 32-bit
    counter wrapped in between: if that read comes [d] milliseconds
    (less than 2^32) after the time stored, the example sketch sends
    exactly when [d] exceeds 30000, and the NC firmware reads its sensors
    exactly when its first read is more than 2000 after
    [lastSensorRead] and sends exactly when its second read is more than
    10000 after [lastFirebaseUpdate]; a stored time moves, to the value
    read for it, only when its action ran. *)
Theorem timers_survive_overflow
    (last1 last2 d1 d2 tStore1 tStore2 : Z) :
  0 ≤ d1 < 2 ^ 32 → 0 ≤ d2 < 2 ^ 32 →
  Timer.loopExample (Timer.wrap32 (last1 + d1)) tStore1 last1
  = (if 30000 <? d1 then tStore1 else last1, 30000 <? d1)
  ∧ Timer.loopNC (Timer.wrap32 (last1 + d1)) tStore1
      (Timer.wrap32 (last2 + d2)) tStore2 (last1, last2)
    = ((if 2000 <? d1 then tStore1 else last1,
        if 10000 <? d2 then tStore2 else last2),
       (2000 <? d1, 10000 <? d2)).
Proof.
  intros Hd1 Hd2.
  unfold Timer.loopExample, Timer.loopNC, Timer.due.
  rewrite !wrap32_elapsed by assumption.
  split; [now destruct (30000 <? d1) | reflexivity].
Qed.

Lemma timers_survive_overflow_witness :
  (0 ≤ 31000 < 2 ^ 32 ∧ 0 ≤ 9990 < 2 ^ 32)
  ∧ Timer.loopExample 30000 30001 (2 ^ 32 - 1000) = (30001, true).
Proof.
  assert (H1 : 0 ≤ 31000 < 2 ^ 32) by (split; [discriminate | reflexivity]).
  assert (H2 : 0 ≤ 9990 < 2 ^ 32) by (split; [discriminate | reflexivity]).
  split; [split; assumption|].
  exact (proj1 (timers_survive_overflow (2 ^ 32 - 1000) 0 31000 9990
                  30001 0 H1 H2)).
Defined.

(** ** What the policy is asked *)

(** X15: when a forecast is held, or none is held and the fetch succeeds,
    exactly one policy call is made, and its input is the snapshot handed
    to the handler (voltage, current, level and power of the record that
    triggered it, not of the held state), the preferences of the user and
    that forecast. *)
Theorem policy_call_carries_the_trigger (act : Actions) (a : App)
    (d : EnergyData) (isAutomatic : bool)
    (p : PredictEnergyConsumptionOutput) :
  prediction a = Some p ∨
  (prediction a = None ∧ success (runEnergyPrediction act) = true
   ∧ data (runEnergyPrediction act) = Some p) →
  ∃ input,
    policyCalls (handleOptimization act a d isAutomatic)
    = policyCalls a ++ [input]
    ∧ in_voltage input = voltage d
    ∧ in_current input = current d
    ∧ in_batteryLevel input = batteryLevel d
    ∧ in_powerConsumption input = power d
    ∧ in_predictedUsage input = predictedConsumption p
    ∧ in_userPreferences input = userPreferences a
    ∧ in_userUsagePatterns input = userUsagePatterns p.
Proof.
  intros H. exists (policyInput a d p).
  split; [now apply forecast_then_policy_call|].
  repeat split.
Qed.

Lemma policy_call_carries_the_trigger_witness :
  prediction (appWith (Some forecast) fiveOff) = Some forecast
  ∧ ∃ input,
      policyCalls
        (handleOptimization noActions (appWith (Some forecast) fiveOff)
           (defaultsWithLevel 35) true)
      = [input]
      ∧ in_batteryLevel input = 35.
Proof.
  split; [reflexivity|].
  destruct (policy_call_carries_the_trigger noActions
              (appWith (Some forecast) fiveOff) (defaultsWithLevel 35) true
              forecast (or_introl eq_refl))
    as (input & Hc & _ & _ & Hb & _).
  exists input. split; [exact Hc | exact Hb].
Defined.

(** ** A request without a forecast *)

(** C8 (amended): when no prediction is held and the fetch that
    [handleOptimization] attempts first fails, the policy action is not
    called, no write is issued and the held switches are unchanged; the
    request ends with the "Cannot Optimize" notification instead of a
    failed policy call. The request is dropped, not deferred: when a
    forecast is fetched afterwards, still no policy call and no write are
    made and the switches stay as they were. *)
Theorem no_forecast_request_is_dropped :
  ∀ (act act' : Actions) (a : App) (dataForOptimization : EnergyData)
    (isAutomatic : bool),
    prediction a = None →
    success (runEnergyPrediction act) = false
    ∨ data (runEnergyPrediction act) = None →
    let a' := handleOptimization act a dataForOptimization isAutomatic in
    predictionCalls a' = S (predictionCalls a)
    ∧ policyCalls a' = policyCalls a
    ∧ writes a' = writes a
    ∧ switches a' = switches a
    ∧ prediction a' = None
    ∧ isOptimizing a' = false
    ∧ toasts a'
      = toasts a ++ [mkToast true "Prediction Failed";
                     mkToast true "Cannot Optimize"]
    ∧ policyCalls (handlePrediction act' a') = policyCalls a
    ∧ writes (handlePrediction act' a') = writes a
    ∧ switches (handlePrediction act' a') = switches a.
Proof.
  intros act act' a d isAutomatic Hp Hfail a'.
  destruct (no_forecast_no_policy_call act a d isAutomatic Hp Hfail)
    as (H1 & H2 & H3 & H4 & H5 & H6 & H7).
  destruct (dropped_request_is_not_resumed act act' a d isAutomatic)
    as (R1 & R2 & R3).
  fold a' in H1, H2, H3, H4, H5, H6, H7, R1, R2, R3.
  repeat split; try assumption; congruence.
Qed.

Lemma no_forecast_request_is_dropped_witness :
  prediction (appWith None fiveOff) = None
  ∧ policyCalls
      (handlePrediction forecasting
         (handleOptimization noActions (appWith None fiveOff)
            (defaultsWithLevel 35) true))
    = [].
Proof.
  split; [reflexivity|].
  destruct (no_forecast_request_is_dropped noActions forecasting
              (appWith None fiveOff) (defaultsWithLevel 35) true eq_refl
              (or_introl eq_refl))
    as (_ & _ & _ & _ & _ & _ & _ & H & _).
  exact H.
Defined.

(** C8 as stated fails: the automatic request made with no forecast is
    not deferred until one is available. After it, a forecast is fetched
    with success and is held, and still the policy was never called, no
    relay was written and the switches are as before. *)
Lemma forecast_arrives_request_stays_dropped :
  prediction
    (handleOptimization noActions (appWith None fiveOff)
       (defaultsWithLevel 35) true) = None
  ∧ prediction
      (handlePrediction forecasting
         (handleOptimization noActions (appWith None fiveOff)
            (defaultsWithLevel 35) true)) = Some forecast
  ∧ policyCalls
      (handlePrediction forecasting
         (handleOptimization noActions (appWith None fiveOff)
            (defaultsWithLevel 35) true)) = []
  ∧ writes
      (handlePrediction forecasting
         (handleOptimization noActions (appWith None fiveOff)
            (defaultsWithLevel 35) true)) = []
  ∧ switches
      (handlePrediction forecasting
         (handleOptimization noActions (appWith None fiveOff)
            (defaultsWithLevel 35) true)) = fiveOff.
Proof. repeat split. Qed.
